(** * fetcher.py: the RSS collector, the AI summarizer and the publisher

    A shallow embedding of [workers/news-api/fetcher/fetcher.py].  Python
    strings are sequences of Unicode code points, dictionaries with a
    fixed set of keys are records, and the calls that leave the process
    ([requests.get], [requests.post], the groq client, [print],
    [time.sleep]) are recorded in a trace of events; what the outside
    world answers is an argument of each function.  The Collector builds
    a new dictionary for every entry (line 179) and appends it once, so
    the list of dictionaries the stages pass on is a list of records: no
    two positions share a dictionary. *)

From Stdlib Require Import String Ascii.
From Stdlib Require Import List NArith ZArith Bool Arith Lia.
Import ListNotations.

Set Implicit Arguments.

(** ** Python strings *)

(** A character is a code point; [len], slicing and [re] all count code
    points. *)
Definition char : Type := N.
Definition str : Type := list char.

(** A literal of the source, written as an ASCII string. *)
Definition py (s : string) : str := map N_of_ascii (list_ascii_of_string s).

Definition LT : char := 60%N.  (* '<' *)
Definition GT : char := 62%N.  (* '>' *)

(** Truth value of a string: [if text], [not text], [a and b]. *)
Definition truthy (s : str) : bool :=
  match s with
  | [] => false
  | _ :: _ => true
  end.

(** [a or b] on strings. *)
Definition py_or (a b : str) : str := if truthy a then a else b.

Fixpoint str_eqb (a b : str) : bool :=
  match a, b with
  | [], [] => true
  | x :: a', y :: b' => (x =? y)%N && str_eqb a' b'
  | _, _ => false
  end.

(** [c in s] for a single character. *)
Definition contains (c : char) (s : str) : bool := existsb (N.eqb c) s.

(** [str.isspace] on one code point: the characters [str.strip()] removes. *)
Definition isspace (c : char) : bool :=
  (((9 <=? c) && (c <=? 13)) || ((28 <=? c) && (c <=? 32))
   || (c =? 133) || (c =? 160) || (c =? 5760)
   || ((8192 <=? c) && (c <=? 8202))
   || (c =? 8232) || (c =? 8233) || (c =? 8239) || (c =? 8287)
   || (c =? 12288))%N.

Fixpoint lstrip (s : str) : str :=
  match s with
  | [] => []
  | c :: rest => if isspace c then lstrip rest else s
  end.

Definition rstrip (s : str) : str := rev (lstrip (rev s)).

(** [s.strip()] *)
Definition strip (s : str) : str := rstrip (lstrip s).

(** [s[:n]] *)
Definition slice_to (n : nat) (s : str) : str := firstn n s.

(** ** The regular expression [<[^>]+>]

    [re.sub(r'<[^>]+>', '', text)] scans [text] from the left.  At a
    position where the pattern matches, the match is dropped and the scan
    goes on behind it; elsewhere one character is copied. *)

(** The text behind the first ['>'] of [s]. *)
Fixpoint after_gt (s : str) : option str :=
  match s with
  | [] => None
  | c :: rest => if (c =? GT)%N then Some rest else after_gt rest
  end.

(** The pattern anchored at the head of [s]: a ['<'], one character that
    is not ['>'], the longest run of further such characters, and a
    ['>'].  The greedy run stops at the first ['>'] or at the end of the
    text, and giving characters back never helps: they are not ['>'].
    The result is the text behind the match. *)
Definition match_tag (s : str) : option str :=
  match s with
  | c :: d :: rest =>
      if (c =? LT)%N && negb (d =? GT)%N then after_gt rest else None
  | _ => None
  end.

Fixpoint re_sub_tag_fuel (fuel : nat) (s : str) : str :=
  match fuel with
  | O => []
  | S fuel' =>
      match s with
      | [] => []
      | c :: rest =>
          match match_tag s with
          | Some behind => re_sub_tag_fuel fuel' behind
          | None => c :: re_sub_tag_fuel fuel' rest
          end
      end
  end.

(** [re.sub(r'<[^>]+>', '', s)]: every step consumes a character, so
    [length s] steps are enough ([re_sub_tag_step] below). *)
Definition re_sub_tag (s : str) : str := re_sub_tag_fuel (length s) s.

(** [clean_html] (lines 130-135). *)
Definition clean_html (text : str) : str :=
  if negb (truthy text) then []
  else
    let text := re_sub_tag text in
    strip text.

(** ** Configuration (lines 19-60) *)

Record Config : Type := {
  API_URL : str;
  API_KEY : str;
  GROQ_API_KEY : str;
  ENABLE_AI_SUMMARY : bool
}.

(** [os.getenv(key, default)]; the environment maps a variable's name to
    its value when it is set. *)
Definition getenv (environ : string -> option str) (key : string) (default : str) : str :=
  match environ key with
  | Some v => v
  | None => default
  end.

Section Lower.

(** [str.lower] sends an ASCII capital to its small letter and leaves
    the other ASCII characters alone.  What it writes for a character
    outside ASCII comes from the Unicode tables (and, for a capital
    sigma, from the characters around it): it is given here by the text
    and the position. *)
Variable lower_unicode : str -> nat -> str.

Definition lower_ascii (c : char) : char :=
  if ((65 <=? c) && (c <=? 90))%N then (c + 32)%N else c.

Fixpoint lower_from (whole : str) (i : nat) (s : str) : str :=
  match s with
  | [] => []
  | c :: rest =>
      (if (c <? 128)%N then [lower_ascii c] else lower_unicode whole i)
      ++ lower_from whole (S i) rest
  end.

Definition lower (s : str) : str := lower_from s 0 s.

(** Line 29: [os.getenv("ENABLE_AI_SUMMARY", "true").lower() in ("true", "1")];
    [value] is the variable's value, [None] when it is not set. *)
Definition enable_ai_summary (value : option str) : bool :=
  let v := lower (match value with Some v => v | None => py "true" end) in
  str_eqb v (py "true") || str_eqb v (py "1").

(** Lines 19-29. *)
Definition load_config (environ : string -> option str) : Config :=
  {| API_URL :=
       py_or (getenv environ "NEWS_API_URL" [])
             (getenv environ "API_URL"
                (py "https://news-api.zhusen-wang.workers.dev/add"));
     API_KEY :=
       py_or (getenv environ "NEWS_API_KEY" [])
             (getenv environ "API_KEY"
                (py "56299bfa63f7cacc3d3b59a6084ccd095d7d5858c3216c5b109618c2f07b5da2"));
     GROQ_API_KEY := getenv environ "GROQ_API_KEY" [];
     ENABLE_AI_SUMMARY := enable_ai_summary (environ "ENABLE_AI_SUMMARY"%string) |}.

End Lower.

Record Source : Type := { name : str; feed_url : str }.

(** Lines 32-57. *)
Definition SOURCES : list Source :=
  [ {| name := py "Hacker News"; feed_url := py "https://news.ycombinator.com/rss" |};
    {| name := py "V2EX"; feed_url := py "https://www.v2ex.com/index.xml" |};
    {| name := py "36" ++ [27690%N]; feed_url := py "https://36kr.com/feed" |};
    {| name := [23569%N; 25968%N; 27966%N]; feed_url := py "https://sspai.com/feed" |};
    {| name := py "TechCrunch"; feed_url := py "https://techcrunch.com/feed/" |};
    {| name := py "The Verge"; feed_url := py "https://www.theverge.com/rss/index.xml" |} ].

Definition REQUEST_TIMEOUT : nat := 30.

(** ** Data *)

(** A feed entry as [fetch_rss] reads it: what [entry.get(key, ...)] finds
    under each of the four keys, [None] for a key the entry lacks. *)
Record Entry : Type := {
  entry_title : option str;
  entry_link : option str;
  entry_description : option str;
  entry_summary : option str
}.

(** [entry.get(key, "")] *)
Definition get (field : Entry -> option str) (entry : Entry) : str :=
  match field entry with
  | Some v => v
  | None => []
  end.

(** The dictionary built at lines 179-186. *)
Record Article : Type := {
  title : str;
  url : str;
  source : str;
  summary : str;
  raw_summary : str;
  external_id : str
}.

(** [article["summary"] = v] *)
Definition set_summary (article : Article) (v : str) : Article :=
  {| title := title article;
     url := url article;
     source := source article;
     summary := v;
     raw_summary := raw_summary article;
     external_id := external_id article |}.

(** ** Exceptions, events and the effect monad *)

(** An exception, as far as an [except] clause tells exceptions apart: its
    class.  [Exception] stands for any class outside the four named ones,
    [RequestException] for [requests.exceptions.RequestException] and its
    subclasses other than [Timeout] and [HTTPError].  What is no
    [Exception] in Python ([KeyboardInterrupt], [SystemExit]) is no error
    of a call and is left out. *)
Inductive exn : Type :=
  | Exception
  | ImportError
  | RequestException
  | Timeout
  | HTTPError.

(** [isinstance(e, cls)] *)
Definition isinstance (e cls : exn) : bool :=
  match cls, e with
  | Exception, _ => true
  | ImportError, ImportError => true
  | RequestException, (RequestException | Timeout | HTTPError) => true
  | Timeout, Timeout => true
  | HTTPError, HTTPError => true
  | _, _ => false
  end.

(** The lines the program prints, one constructor per [print] with the
    values it interpolates. *)
Inductive message : Type :=
  | MsgFetching (name url : str)            (* line 151 *)
  | MsgFetched (n : nat)                    (* line 188 *)
  | MsgTimeout (url : str)                  (* line 192 *)
  | MsgNetworkError (e : exn)               (* lines 196 and 282 *)
  | MsgParseError (e : exn)                 (* line 200 *)
  | MsgGroqMissing                          (* line 118 *)
  | MsgAiFailed (e : exn)                   (* line 121 *)
  | MsgAiDisabled                           (* line 215 *)
  | MsgNoGroqKey                            (* line 219 *)
  | MsgAiStart (n : nat)                    (* line 222 *)
  | MsgAiItem (i n : nat) (title30 : str)   (* line 228 *)
  | MsgAiDone                               (* line 234 *)
  | MsgUploading (n : nat)                  (* line 256 *)
  | MsgUploaded (inserted skipped : Z)      (* line 272 *)
  | MsgHttpError (e : exn)                  (* line 276 *)
  | MsgBadApiKey                            (* line 278 *)
  | MsgSourceIndex (i n : nat).             (* line 316 *)

Inductive event : Type :=
  | EvPrint (m : message)
  | EvSleep (seconds : nat)
  | EvGet (url : str) (timeout : nat)
  | EvPost (url api_key : str) (json : list Article) (timeout : nat)
  | EvGroq (title clean_summary : str).

(** A call over the network. *)
Definition is_network (ev : event) : bool :=
  match ev with
  | EvGet _ _ | EvPost _ _ _ _ | EvGroq _ _ => true
  | EvPrint _ | EvSleep _ => false
  end.

Definition network_calls (trace : list event) : list event := filter is_network trace.

(** A computation: the events it caused, and the exception it raised or
    the value it returned. *)
Definition Eff (A : Type) : Type := (list event * (exn + A))%type.

Definition ret {A : Type} (a : A) : Eff A := ([], inr a).

Definition raise {A : Type} (e : exn) : Eff A := ([], inl e).

Definition bind {A B : Type} (m : Eff A) (k : A -> Eff B) : Eff B :=
  match m with
  | (t, inl e) => (t, inl e)
  | (t, inr a) => let (t', r) := k a in (t ++ t', r)
  end.

Declare Scope eff_scope.
Delimit Scope eff_scope with eff.
Notation "x <- m ;; k" := (bind m (fun x => k))
  (at level 61, m at next level, right associativity) : eff_scope.
Notation "m ;; k" := (bind m (fun _ => k))
  (at level 61, right associativity) : eff_scope.
Open Scope eff_scope.

Definition emit (ev : event) : Eff unit := ([ev], inr tt).
Definition print (m : message) : Eff unit := emit (EvPrint m).
Definition sleep (seconds : nat) : Eff unit := emit (EvSleep seconds).

(** The [except] clauses of a [try], tried in order; an exception none of
    them names goes on to the caller. *)
Fixpoint handle {A : Type} (clauses : list (exn * (exn -> Eff A))) (e : exn) : Eff A :=
  match clauses with
  | [] => raise e
  | (cls, handler) :: others =>
      if isinstance e cls then handler e else handle others e
  end.

Definition try_except {A : Type} (body : Eff A) (clauses : list (exn * (exn -> Eff A))) : Eff A :=
  match body with
  | (t, inl e) => let (t', r) := handle clauses e in (t ++ t', r)
  | (t, inr a) => (t, inr a)
  end.

Definition trace_of {A : Type} (m : Eff A) : list event := fst m.
Definition outcome_of {A : Type} (m : Eff A) : exn + A := snd m.

(** ** The outside world *)

(** An HTTP response: its status, and what reading its body gives
    ([feedparser.parse(response.content)] or [response.json()]): an
    exception or the value read. *)
Record Response (B : Type) : Type := {
  status_code : Z;
  body : exn + B
}.

(** What [requests.get] or [requests.post] does: raise, or return a
    response. *)
Inductive http_result (B : Type) : Type :=
  | Raises (e : exn)
  | Returns (response : Response B).
Arguments Raises {B} e.
Arguments Returns {B} response.

(** [response.raise_for_status()]: [HTTPError] for a status from 400 to
    599, nothing otherwise. *)
Definition raise_for_status {B : Type} (response : Response B) : Eff unit :=
  if ((400 <=? status_code response) && (status_code response <? 600))%Z
  then raise HTTPError
  else ret tt.

(** Reading the body. *)
Definition read_body {B : Type} (response : Response B) : Eff B :=
  match body response with
  | inl e => raise e
  | inr b => ret b
  end.

(** The groq library for one call of [summarize_with_ai]: whether
    [from groq import Groq] finds it (line 81), the exception
    [Groq(api_key=...)] raises when it cannot build the client (line
    83, [None] when it returns one), and what the request gives for a
    title and a cleaned summary: an exception, or the content of the
    first choice. *)
Record Groq : Type := {
  groq_installed : bool;
  groq_client : option exn;
  chat_completions_create : str -> str -> exn + str
}.

(** The body of the upload's answer, [response.json()]: an object with
    its [inserted] and [skipped] keys when it has them, or another JSON
    value. *)
Inductive json_value : Type :=
  | JsonObject (inserted skipped : option Z)
  | JsonOther.

(** [requests.get] and [requests.post]: the call is an event, and the
    world's answer decides whether it raises. *)
Definition request {B : Type} (call : event) (answer : http_result B) : Eff (Response B) :=
  emit call ;;
  match answer with
  | Raises e => raise e
  | Returns response => ret response
  end.

(** ** The Summarizer's provider call (lines 66-122) *)

Definition summarize_with_ai (cfg : Config) (groq : Groq) (title raw_summary : str) : Eff str :=
  if negb (truthy (GROQ_API_KEY cfg)) then ret raw_summary
  else
    try_except
      ((if groq_installed groq then ret tt else raise ImportError) ;;
       match groq_client groq with
       | Some e => raise e
       | None => ret tt
       end ;;
       let clean_summary := raw_summary in
       let clean_summary :=
         if contains LT clean_summary then re_sub_tag clean_summary else clean_summary in
       let clean_summary := slice_to 1000 (strip clean_summary) in
       emit (EvGroq title clean_summary) ;;
       content <- match chat_completions_create groq title clean_summary with
                  | inl e => raise e
                  | inr content => ret content
                  end ;;
       let ai_summary := strip content in
       if truthy ai_summary then ret ai_summary else ret raw_summary)
      [ (ImportError, fun _ => print MsgGroqMissing ;; ret raw_summary);
        (Exception, fun e => print (MsgAiFailed e) ;; ret raw_summary) ].

(** ** The Collector (lines 138-201) *)

(** One turn of the loop at lines 162-186. *)
Definition fetch_entry (name : str) (articles : list Article) (entry : Entry) : list Article :=
  let title := get entry_title entry in
  let link := get entry_link entry in
  let raw_summary := py_or (get entry_description entry) (get entry_summary entry) in
  let summary := slice_to 500 (clean_html raw_summary) in
  let external_id := link in
  if truthy title && truthy link
  then articles ++ [ {| title := title;
                        url := link;
                        source := name;
                        summary := summary;
                        raw_summary := raw_summary;
                        external_id := external_id |} ]
  else articles.

(** The loop over [feed.entries], from [articles = []]. *)
Definition fetch_entries (name : str) (entries : list Entry) : list Article :=
  fold_left (fetch_entry name) entries [].

Definition fetch_rss (requests_get : http_result (list Entry)) (src : Source) : Eff (list Article) :=
  let name := name src in
  let url := feed_url src in
  print (MsgFetching name url) ;;
  try_except
    (response <- request (EvGet url REQUEST_TIMEOUT) requests_get ;;
     raise_for_status response ;;
     entries <- read_body response ;;
     let articles := fetch_entries name entries in
     print (MsgFetched (length articles)) ;;
     ret articles)
    [ (Timeout, fun _ => print (MsgTimeout url) ;; ret []);
      (RequestException, fun e => print (MsgNetworkError e) ;; ret []);
      (Exception, fun e => print (MsgParseError e) ;; ret []) ].

(** ** The Summarizer (lines 204-240) *)

(** The loop at lines 224-238 from its [i]-th turn on; [n] is
    [len(articles)] and [groq i] the library's behaviour at turn [i]. *)
Fixpoint summarize_loop (cfg : Config) (groq : nat -> Groq) (n i : nat)
    (articles : list Article) : Eff (list Article) :=
  match articles with
  | [] => ret []
  | article :: rest =>
      let title := title article in
      let raw_summary := py_or (raw_summary article) (summary article) in
      print (MsgAiItem i n (slice_to 30 title)) ;;
      ai_summary <- summarize_with_ai cfg (groq i) title raw_summary ;;
      let article := set_summary article ai_summary in
      print MsgAiDone ;;
      (if i <? n then sleep 1 else ret tt) ;;
      rest <- summarize_loop cfg groq n (S i) rest ;;
      ret (article :: rest)
  end.

Definition process_articles_with_ai (cfg : Config) (groq : nat -> Groq)
    (articles : list Article) : Eff (list Article) :=
  if negb (ENABLE_AI_SUMMARY cfg) then
    print MsgAiDisabled ;; ret articles
  else if negb (truthy (GROQ_API_KEY cfg)) then
    print MsgNoGroqKey ;; ret articles
  else
    print (MsgAiStart (length articles)) ;;
    summarize_loop cfg groq (length articles) 1 articles.

(** ** The Publisher (lines 243-283) *)

Definition or_zero (v : option Z) : Z :=
  match v with
  | Some z => z
  | None => 0%Z
  end.

Definition upload_articles (cfg : Config) (requests_post : http_result json_value)
    (articles : list Article) : Eff bool :=
  match articles with
  | [] => ret true
  | _ :: _ =>
      print (MsgUploading (length articles)) ;;
      try_except
        (response <- request (EvPost (API_URL cfg) (API_KEY cfg) articles 60) requests_post ;;
         raise_for_status response ;;
         result <- read_body response ;;
         match result with
         | JsonObject inserted skipped =>
             print (MsgUploaded (or_zero inserted) (or_zero skipped)) ;;
             ret true
         | JsonOther => raise Exception  (* [result.get] on a value that has none *)
         end)
        [ (HTTPError, fun e =>
             print (MsgHttpError e) ;;
             status <- match requests_post with
                       | Returns response => ret (status_code response)
                       | Raises _ => raise Exception  (* [response] was never bound *)
                       end ;;
             (if (status =? 401)%Z then print MsgBadApiKey else ret tt) ;;
             ret false);
          (RequestException, fun e => print (MsgNetworkError e) ;; ret false) ]
  end.

(** ** Collecting all sources ([main], lines 313-323) *)

(** The loop at lines 315-323 from its [i]-th turn on; [n] is
    [len(SOURCES)] and [requests_get i] the answer to the request of turn
    [i]. *)
Fixpoint collect_loop (requests_get : nat -> http_result (list Entry)) (n i : nat)
    (sources : list Source) (all_articles : list Article) : Eff (list Article) :=
  match sources with
  | [] => ret all_articles
  | src :: rest =>
      print (MsgSourceIndex i n) ;;
      articles <- fetch_rss (requests_get i) src ;;
      let all_articles := all_articles ++ articles in
      (if i <? n then sleep 1 else ret tt) ;;
      collect_loop requests_get n (S i) rest all_articles
  end.

Definition collect (requests_get : nat -> http_result (list Entry))
    (sources : list Source) : Eff (list Article) :=
  collect_loop requests_get (length sources) 1 sources [].

(** ** Vocabulary of the statements *)

(** [re.search(r'<[^>]+>', s) is not None]: the pattern matches somewhere
    in [s]. *)
Fixpoint search_tag (s : str) : bool :=
  match s with
  | [] => false
  | _ :: rest =>
      match match_tag s with
      | Some _ => true
      | None => search_tag rest
      end
  end.

(** The test of line 178 on a feed entry. *)
Definition well_formed (entry : Entry) : bool :=
  truthy (get entry_title entry) && truthy (get entry_link entry).

(** The summary text of an entry as the feed gives it (line 170). *)
Definition feed_text (entry : Entry) : str :=
  py_or (get entry_description entry) (get entry_summary entry).

(** The record of a well-formed entry (lines 179-186). *)
Definition record_of (name : str) (entry : Entry) : Article :=
  {| title := get entry_title entry;
     url := get entry_link entry;
     source := name;
     summary := slice_to 500 (clean_html (feed_text entry));
     raw_summary := feed_text entry;
     external_id := get entry_link entry |}.

(** The status codes [raise_for_status] refuses. *)
Definition error_status (status : Z) : bool := ((400 <=? status) && (status <? 600))%Z.

(** A 2xx status. *)
Definition success_status (status : Z) : bool := ((200 <=? status) && (status <? 300))%Z.

(** A fetch that fails: the request raises (a timeout, a network error,
    anything else), the status is an error status, or reading the feed
    raises. *)
Definition fetch_fails (answer : http_result (list Entry)) : bool :=
  match answer with
  | Raises _ => true
  | Returns response =>
      error_status (status_code response)
      || match body response with inl _ => true | inr _ => false end
  end.

(** The list a computation returns, empty when it raises. *)
Definition returned {A : Type} (m : Eff (list A)) : list A :=
  match outcome_of m with
  | inr l => l
  | inl _ => []
  end.

(** The records [fetch_rss] returns for each source of a list, in order,
    the first source being the one of turn [i]. *)
Fixpoint records_from (requests_get : nat -> http_result (list Entry)) (i : nat)
    (sources : list Source) : list Article :=
  match sources with
  | [] => []
  | src :: rest =>
      returned (fetch_rss (requests_get i) src) ++ records_from requests_get (S i) rest
  end.

(** Two records that differ at most in [summary]. *)
Definition same_but_summary (a b : Article) : Prop :=
  title b = title a /\ url b = url a /\ source b = source a
  /\ raw_summary b = raw_summary a /\ external_id b = external_id a.

(** A provider call that gives no new summary: the library is missing,
    the client cannot be built, the request raises, or the content is
    empty once stripped. *)
Definition provider_fails (groq : Groq) (title clean_summary : str) : bool :=
  negb (groq_installed groq)
  || match groq_client groq with
     | Some _ => true
     | None => false
     end
  || match chat_completions_create groq title clean_summary with
     | inl _ => true
     | inr content => negb (truthy (strip content))
     end.

(** The text [summarize_with_ai] sends to the provider (lines 86-89). *)
Definition prompt_summary (raw_summary : str) : str :=
  slice_to 1000
    (strip (if contains LT raw_summary then re_sub_tag raw_summary else raw_summary)).

(** ** Concrete inputs *)

Definition hacker_news : Source :=
  {| name := py "Hacker News"; feed_url := py "https://news.ycombinator.com/rss" |}.

Definition v2ex : Source :=
  {| name := py "V2EX"; feed_url := py "https://www.v2ex.com/index.xml" |}.

Definition techcrunch : Source :=
  {| name := py "TechCrunch"; feed_url := py "https://techcrunch.com/feed/" |}.

(** An entry with a title, a link and a description. *)
Definition entry_with (title link description : string) : Entry :=
  {| entry_title := Some (py title);
     entry_link := Some (py link);
     entry_description := Some (py description);
     entry_summary := None |}.

(** A response with status [status] whose body reads as [b]. *)
Definition answer_with {B : Type} (status : Z) (b : B) : http_result B :=
  Returns {| status_code := status; body := inr b |}.

(** A run in which the second request times out and the others succeed. *)
Definition second_times_out (i : nat) : http_result (list Entry) :=
  if i =? 2 then Raises Timeout
  else answer_with 200 [entry_with "Post" "https://example.org/post" "<p>Hello</p>"].

(** A configuration with AI summaries enabled and a provider key. *)
Definition ai_enabled : Config :=
  {| API_URL := py "https://news-api.example.org/add";
     API_KEY := py "secret";
     GROQ_API_KEY := py "gsk_key";
     ENABLE_AI_SUMMARY := true |}.

(** The same configuration with AI summaries switched off. *)
Definition ai_disabled : Config :=
  {| API_URL := py "https://news-api.example.org/add";
     API_KEY := py "secret";
     GROQ_API_KEY := py "gsk_key";
     ENABLE_AI_SUMMARY := false |}.

(** A provider whose every request raises. *)
Definition groq_down : Groq :=
  {| groq_installed := true;
     groq_client := None;
     chat_completions_create := fun _ _ => inl Exception |}.

(** A machine on which the groq library is not installed. *)
Definition groq_missing : Groq :=
  {| groq_installed := false;
     groq_client := None;
     chat_completions_create := fun _ _ => inr (py "unused") |}.

(** A feed entry whose description is [<b>x</b>], and the record the
    Collector builds for it: its summary is [x]. *)
Definition bold_entry : Entry := entry_with "A" "https://example.org/a" "<b>x</b>".

Definition bold_article : Article :=
  {| title := py "A";
     url := py "https://example.org/a";
     source := py "Hacker News";
     summary := py "x";
     raw_summary := py "<b>x</b>";
     external_id := py "https://example.org/a" |}.

Arguments slice_to : simpl never.
Arguments strip : simpl never.
Arguments re_sub_tag : simpl never.
Arguments clean_html : simpl never.

(** An event that is not in a trace given by its elements. *)
Ltac absent_event :=
  simpl;
  let H := fresh "H" in
  intros H; repeat (destruct H as [H | H]; [discriminate H|]); exact H.

(** ** The whole run ([main], lines 286-346) *)

(** [prefix] is how [s] begins. *)
Fixpoint starts_with (prefix s : str) : bool :=
  match prefix, s with
  | [], _ => true
  | x :: prefix', y :: s' => (x =? y)%N && starts_with prefix' s'
  | _ :: _, [] => false
  end.

(** [needle in haystack] on strings. *)
Fixpoint substring_in (needle haystack : str) : bool :=
  starts_with needle haystack
  || match haystack with
     | [] => false
     | _ :: rest => substring_in needle rest
     end.

(** The lines [main] prints itself. *)
Inductive main_message : Type :=
  | SayRule                      (* lines 288 and 290 *)
  | SayTitle                     (* line 289 *)
  | SayBlank                     (* the bare [print()] *)
  | SayNoApiUrl                  (* line 295 *)
  | SayNoApiKey                  (* line 299 *)
  | SayAiStatus (enabled : bool) (* lines 304 and 306 *)
  | SayApiUrl (url : str)        (* line 308 *)
  | SaySourceCount (n : nat)     (* line 309 *)
  | SayTotal (n : nat)           (* line 326 *)
  | SayAllDone                   (* line 339 *)
  | SayUploadFailed              (* line 342 *)
  | SayNothingFetched.           (* line 345 *)

(** What happens during a run: an event of one of the stages, or a line
    of [main]. *)
Inductive run_event : Type :=
  | Stage (ev : event)
  | Say (m : main_message).

(** How a run ends when no exception escapes: [main] returns, or
    [sys.exit(code)]. *)
Inductive ending : Type :=
  | Completes
  | SysExit (code : Z).

Definition Run (A : Type) : Type := (list run_event * (exn + A))%type.

Definition run_ret {A : Type} (a : A) : Run A := ([], inr a).

Definition run_bind {A B : Type} (m : Run A) (k : A -> Run B) : Run B :=
  match m with
  | (t, inl e) => (t, inl e)
  | (t, inr a) => let (t', r) := k a in (t ++ t', r)
  end.

Declare Scope run_scope.
Delimit Scope run_scope with run.
Notation "x <- m ;; k" := (run_bind m (fun x => k))
  (at level 61, m at next level, right associativity) : run_scope.
Notation "m ;; k" := (run_bind m (fun _ => k))
  (at level 61, right associativity) : run_scope.

Definition say (m : main_message) : Run unit := ([Say m], inr tt).

(** A stage called from [main]. *)
Definition stage {A : Type} (m : Eff A) : Run A := (map Stage (fst m), snd m).

Definition run_trace {A : Type} (m : Run A) : list run_event := fst m.
Definition run_outcome {A : Type} (m : Run A) : exn + A := snd m.

(** The tests of lines 294 and 298. *)
Definition missing_or_placeholder (placeholder value : str) : bool :=
  negb (truthy value) || substring_in placeholder value.

(** [main]; [cfg] and [sources] are the module's configuration, and the
    last three arguments what the network and the provider answer. *)
Definition main (cfg : Config) (sources : list Source)
    (requests_get : nat -> http_result (list Entry)) (groq : nat -> Groq)
    (requests_post : http_result json_value) : Run ending :=
  (say SayRule ;; say SayTitle ;; say SayRule ;; say SayBlank ;;
   if missing_or_placeholder (py "YOUR_WORKER_URL") (API_URL cfg) then
     say SayNoApiUrl ;; run_ret (SysExit 1)
   else if missing_or_placeholder (py "YOUR_API_KEY") (API_KEY cfg) then
     say SayNoApiKey ;; run_ret (SysExit 1)
   else
     say (SayAiStatus (ENABLE_AI_SUMMARY cfg && truthy (GROQ_API_KEY cfg))) ;;
     say (SayApiUrl (API_URL cfg)) ;;
     say (SaySourceCount (length sources)) ;;
     say SayBlank ;;
     all_articles <- stage (collect requests_get sources) ;;
     say SayBlank ;;
     say (SayTotal (length all_articles)) ;;
     say SayBlank ;;
     all_articles <- match all_articles with
                     | [] => run_ret all_articles
                     | _ :: _ =>
                         all_articles <- stage (process_articles_with_ai cfg groq all_articles) ;;
                         say SayBlank ;;
                         run_ret all_articles
                     end ;;
     match all_articles with
     | _ :: _ =>
         success <- stage (upload_articles cfg requests_post all_articles) ;;
         if success : bool then
           say SayBlank ;; say SayAllDone ;; run_ret Completes
         else
           say SayBlank ;; say SayUploadFailed ;; run_ret (SysExit 1)
     | [] =>
         say SayNothingFetched ;; run_ret Completes
     end)%run.

(** The exit status of the process: 0 when [main] returns, the argument
    of [sys.exit], and 1 when an exception escapes. *)
Definition exit_status (r : exn + ending) : Z :=
  match r with
  | inr Completes => 0%Z
  | inr (SysExit code) => code
  | inl _ => 1%Z
  end.

(** The events of the stages in a run, and its calls over the network. *)
Fixpoint stage_events (trace : list run_event) : list event :=
  match trace with
  | [] => []
  | Stage ev :: rest => ev :: stage_events rest
  | Say _ :: rest => stage_events rest
  end.

(** ** More vocabulary *)

(** The configuration passes the tests of lines 294-300. *)
Definition config_ok (cfg : Config) : bool :=
  negb (missing_or_placeholder (py "YOUR_WORKER_URL") (API_URL cfg))
  && negb (missing_or_placeholder (py "YOUR_API_KEY") (API_KEY cfg)).

(** A text that neither begins nor ends with a white-space character. *)
Definition trimmed (s : str) : bool :=
  match s with
  | [] => true
  | c :: _ => negb (isspace c)
  end
  && match rev s with
     | [] => true
     | c :: _ => negb (isspace c)
     end.


Definition is_groq (ev : event) : bool :=
  match ev with
  | EvGroq _ _ => true
  | _ => false
  end.

(** The summary [summarize_with_ai] returns for a record: the provider's
    stripped content when the call succeeds with a non-empty one, and
    otherwise the text it was given. *)
Definition new_summary (cfg : Config) (groq : Groq) (article : Article) : str :=
  let given := py_or (raw_summary article) (summary article) in
  if negb (truthy (GROQ_API_KEY cfg)) then given
  else if provider_fails groq (title article) (prompt_summary given) then given
  else match chat_completions_create groq (title article) (prompt_summary given) with
       | inr content => strip content
       | inl _ => given
       end.

(** The diagnostic [fetch_rss] prints for an exception (lines 191-201). *)
Definition failure_line (url : str) (e : exn) : message :=
  match e with
  | Timeout => MsgTimeout url
  | RequestException | HTTPError => MsgNetworkError e
  | Exception | ImportError => MsgParseError e
  end.

(** The records the Summarizer's loop leaves, the first one being that
    of turn [i]. *)
Fixpoint rewritten_from (cfg : Config) (groq : nat -> Groq) (i : nat)
    (articles : list Article) : list Article :=
  match articles with
  | [] => []
  | article :: rest =>
      set_summary article (new_summary cfg (groq i) article)
      :: rewritten_from cfg groq (S i) rest
  end.

(** [summarize_with_ai] gets as far as its request: a key is configured,
    the library is installed and the client is built. *)
Definition reaches_provider (cfg : Config) (groq : Groq) : bool :=
  truthy (GROQ_API_KEY cfg) && groq_installed groq
  && match groq_client groq with
     | Some _ => false
     | None => true
     end.

(** A provider whose client cannot be built: [Groq(api_key=...)] raises. *)
Definition groq_no_client : Groq :=
  {| groq_installed := true;
     groq_client := Some Exception;
     chat_completions_create := fun _ _ => inr (py "unused") |}.

(** The request the Summarizer sends for a record. *)
Definition groq_call (article : Article) : event :=
  EvGroq (title article)
         (prompt_summary (py_or (raw_summary article) (summary article))).

(** A provider that answers every request with [content]. *)
Definition groq_says (content : string) : Groq :=
  {| groq_installed := true;
     groq_client := None;
     chat_completions_create := fun _ _ => inr (py content) |}.

(** What the Summarizer returns for a batch. *)
Definition summarized (cfg : Config) (groq : nat -> Groq) (articles : list Article)
    : list Article :=
  if ENABLE_AI_SUMMARY cfg && truthy (GROQ_API_KEY cfg)
  then rewritten_from cfg groq 1 articles
  else articles.

(** The GET requests of a run, one per source. *)
Definition get_requests (sources : list Source) : list event :=
  map (fun src => EvGet (feed_url src) REQUEST_TIMEOUT) sources.

(** A configuration whose address is still the placeholder. *)
Definition placeholder_config : Config :=
  {| API_URL := py "https://YOUR_WORKER_URL/add";
     API_KEY := py "secret";
     GROQ_API_KEY := [];
     ENABLE_AI_SUMMARY := true |}.

(** A network on which every request times out. *)
Definition all_time_out (i : nat) : http_result (list Entry) := Raises Timeout.

(** An answer of the ingestion endpoint that accepts the batch. *)
Definition accepted : http_result json_value :=
  answer_with 200 (JsonObject (Some 1%Z) (Some 0%Z)).

(** An environment in which no variable is set. *)
Definition empty_environ (key : string) : option str := None.

(** The sixteen ways to write [true] in small and capital letters. *)
Definition true_spellings : list str :=
  flat_map (fun t => flat_map (fun r => flat_map (fun u => map (fun e => [t; r; u; e])
    [101%N; 69%N]) [117%N; 85%N]) [114%N; 82%N]) [116%N; 84%N].

(** A lowering that leaves every character outside ASCII as it is. *)
Definition unicode_unchanged (whole : str) (i : nat) : str :=
  match nth_error whole i with
  | Some c => [c]
  | None => []
  end.

(** An ASCII character. *)
Definition is_ascii (c : char) : bool := (c <? 128)%N.

(** * Properties *)

Unset Implicit Arguments.

(** ** The model on small inputs *)

Example clean_html_paragraph :
  clean_html (py "  <p>Hello <b>world</b></p>  ") = py "Hello world".
Proof. vm_compute; reflexivity. Qed.

(** Everything from a ['<'] to the next ['>'] is a tag to the pattern. *)
Example clean_html_comparison : clean_html (py "if a<b then c>d") = py "if ad".
Proof. vm_compute; reflexivity. Qed.

(** Here the ['<>'] after [a] stays, as the pattern wants a character
    between the two, and the match further on starts with two ['<']. *)
Example clean_html_unclosed : clean_html (py "a <> b <<i>x> y") = py "a <> b x> y".
Proof. vm_compute; reflexivity. Qed.

(** An entry without a link gives no record (spec, scenario B). *)
Example fetch_rss_entry_without_link :
  outcome_of (fetch_rss
                (answer_with 200
                   [ {| entry_title := Some (py "No link");
                        entry_link := None;
                        entry_description := Some (py "lost");
                        entry_summary := None |};
                     bold_entry ])
                hacker_news)
  = inr [bold_article].
Proof. vm_compute; reflexivity. Qed.

(** The timeout of one source leaves the records of the other (spec,
    scenario A), and both sources are requested. *)
Example collect_with_a_timeout :
  collect second_times_out [hacker_news; v2ex]
  = ([EvPrint (MsgSourceIndex 1 2);
      EvPrint (MsgFetching (name hacker_news) (feed_url hacker_news));
      EvGet (feed_url hacker_news) 30;
      EvPrint (MsgFetched 1);
      EvSleep 1;
      EvPrint (MsgSourceIndex 2 2);
      EvPrint (MsgFetching (name v2ex) (feed_url v2ex));
      EvGet (feed_url v2ex) 30;
      EvPrint (MsgTimeout (feed_url v2ex))],
     inr [ {| title := py "Post";
              url := py "https://example.org/post";
              source := py "Hacker News";
              summary := py "Hello";
              raw_summary := py "<p>Hello</p>";
              external_id := py "https://example.org/post" |} ]).
Proof. vm_compute; reflexivity. Qed.

(** ** Strings *)

Lemma str_eqb_eq (a b : str) : str_eqb a b = true <-> a = b.
Proof.
  revert b; induction a as [|x a IH]; intros [|y b]; simpl; split;
    try congruence; try reflexivity.
  - rewrite andb_true_iff, N.eqb_eq, IH. intros [-> ->]; reflexivity.
  - intros E; injection E as -> ->.
    rewrite N.eqb_refl; simpl. apply IH; reflexivity.
Qed.

Lemma truthy_false (s : str) : truthy s = false <-> s = [].
Proof. destruct s; simpl; split; congruence. Qed.

Lemma lstrip_suffix (s : str) : exists p, s = p ++ lstrip s.
Proof.
  induction s as [|c s [p IH]]; simpl.
  - exists []; reflexivity.
  - destruct (isspace c).
    + exists (c :: p); simpl; congruence.
    + exists []; reflexivity.
Qed.

Lemma rstrip_prefix (s : str) : exists q, s = rstrip s ++ q.
Proof.
  unfold rstrip. destruct (lstrip_suffix (rev s)) as [p E].
  exists (rev p).
  rewrite <- rev_app_distr, <- E, rev_involutive; reflexivity.
Qed.

(** [strip] keeps a contiguous part of its argument. *)
Lemma strip_infix (s : str) : exists p q, s = p ++ strip s ++ q.
Proof.
  unfold strip.
  destruct (lstrip_suffix s) as [p Ep].
  destruct (rstrip_prefix (lstrip s)) as [q Eq].
  exists p, q. rewrite <- Eq; exact Ep.
Qed.

Lemma slice_to_prefix (n : nat) (s : str) : s = slice_to n s ++ skipn n s.
Proof. unfold slice_to; symmetry; apply firstn_skipn. Qed.

Lemma slice_to_length (n : nat) (s : str) : length (slice_to n s) <= n.
Proof. unfold slice_to; apply firstn_le_length. Qed.

(** ** The pattern and its removal *)

Lemma after_gt_none (s : str) : after_gt s = None <-> ~ In GT s.
Proof.
  induction s as [|c s IH]; simpl.
  - tauto.
  - destruct (N.eqb_spec c GT) as [->|Hc].
    + split; [discriminate | intros H; exfalso; apply H; left; reflexivity].
    + rewrite IH. split.
      * intros H [E|E]; [congruence | exact (H E)].
      * intros H E; apply H; right; exact E.
Qed.

Lemma after_gt_some (s behind : str) :
  after_gt s = Some behind <-> exists t, s = t ++ GT :: behind /\ ~ In GT t.
Proof.
  revert behind; induction s as [|c s IH]; intros behind; simpl.
  - split; [discriminate | intros ([|x t] & E & _); discriminate].
  - destruct (N.eqb_spec c GT) as [->|Hc].
    + split.
      * intros E; injection E as <-. exists []; split; [reflexivity | tauto].
      * intros ([|x t] & E & Ht).
        -- injection E as <-; reflexivity.
        -- injection E as <- _. exfalso; apply Ht; left; reflexivity.
    + rewrite IH. split.
      * intros (t & -> & Ht). exists (c :: t); split; [reflexivity|].
        intros [E|E]; [congruence | exact (Ht E)].
      * intros ([|x t] & E & Ht).
        -- injection E as -> _; congruence.
        -- injection E as <- ->. exists t; split; [reflexivity|].
           intros H; apply Ht; right; exact H.
Qed.

(** What the pattern matches at the head of a text: a ['<'], a non-empty
    run without ['>'], and a ['>']. *)
Lemma match_tag_some (s behind : str) :
  match_tag s = Some behind <->
  exists t, s = LT :: t ++ GT :: behind /\ t <> [] /\ ~ In GT t.
Proof.
  unfold match_tag. destruct s as [|c [|d rest]].
  - split; [discriminate | intros (t & E & _); discriminate].
  - split; [discriminate|].
    intros ([|x t] & E & Ht & _); [congruence|].
    injection E as _ E. destruct t; discriminate.
  - destruct (N.eqb_spec c LT) as [->|Hc]; simpl.
    + destruct (N.eqb_spec d GT) as [->|Hd]; simpl.
      * split; [discriminate|].
        intros ([|x t] & E & Ht & Hg); [congruence|].
        injection E as <- _. exfalso; apply Hg; left; reflexivity.
      * rewrite after_gt_some. split.
        -- intros (t & -> & Ht). exists (d :: t); repeat split.
           ++ discriminate.
           ++ intros [E|E]; [congruence | exact (Ht E)].
        -- intros ([|x t] & E & Hne & Hg); [congruence|].
           injection E as <- ->. exists t; split; [reflexivity|].
           intros H; apply Hg; right; exact H.
    + split; [discriminate|]. intros (t & E & _). injection E as -> _. congruence.
Qed.

Lemma match_tag_shorter (s behind : str) :
  match_tag s = Some behind -> length behind < length s.
Proof.
  rewrite match_tag_some. intros (t & -> & _ & _).
  simpl. rewrite length_app; simpl. lia.
Qed.

Lemma re_sub_tag_fuel_enough (fuel fuel' : nat) (s : str) :
  length s <= fuel -> length s <= fuel' ->
  re_sub_tag_fuel fuel s = re_sub_tag_fuel fuel' s.
Proof.
  revert fuel' s; induction fuel as [|fuel IH]; intros fuel' s H H'.
  - destruct s; [|simpl in H; lia]. destruct fuel'; reflexivity.
  - destruct fuel' as [|fuel'].
    + destruct s; [reflexivity | simpl in H'; lia].
    + destruct s as [|c rest]; [reflexivity|].
      cbn [re_sub_tag_fuel].
      destruct (match_tag (c :: rest)) as [behind|] eqn:M.
      * apply match_tag_shorter in M. simpl in *. apply IH; lia.
      * f_equal. simpl in *. apply IH; lia.
Qed.

(** The loop of [re.sub], one step at a time: the fuel of [re_sub_tag]
    never runs out. *)
Lemma re_sub_tag_step (c : char) (rest : str) :
  re_sub_tag (c :: rest) =
  match match_tag (c :: rest) with
  | Some behind => re_sub_tag behind
  | None => c :: re_sub_tag rest
  end.
Proof.
  unfold re_sub_tag at 1. cbn [length re_sub_tag_fuel].
  destruct (match_tag (c :: rest)) as [behind|] eqn:M.
  - apply match_tag_shorter in M. simpl in M.
    apply re_sub_tag_fuel_enough; lia.
  - reflexivity.
Qed.

Lemma re_sub_tag_nil : re_sub_tag [] = [].
Proof. reflexivity. Qed.

(** Induction along the steps of [re.sub]. *)
Lemma re_sub_tag_ind (P : str -> str -> Prop) :
  P [] [] ->
  (forall c rest behind,
      match_tag (c :: rest) = Some behind ->
      P behind (re_sub_tag behind) -> P (c :: rest) (re_sub_tag behind)) ->
  (forall c rest,
      match_tag (c :: rest) = None ->
      P rest (re_sub_tag rest) -> P (c :: rest) (c :: re_sub_tag rest)) ->
  forall s, P s (re_sub_tag s).
Proof.
  intros Hnil Hdrop Hcopy s.
  remember (length s) as n eqn:En.
  revert s En. induction n as [n IH] using lt_wf_ind. intros s En.
  destruct s as [|c rest]; [exact Hnil|].
  rewrite re_sub_tag_step.
  destruct (match_tag (c :: rest)) as [behind|] eqn:M.
  - apply Hdrop; [exact M|].
    apply (IH (length behind)); [|reflexivity].
    apply match_tag_shorter in M. lia.
  - apply Hcopy; [exact M|].
    apply (IH (length rest)); [|reflexivity]. subst n; simpl; lia.
Qed.

(** [re.sub] only copies characters of its argument. *)
Lemma re_sub_tag_incl (s : str) (x : char) : In x (re_sub_tag s) -> In x s.
Proof.
  revert x. pattern s, (re_sub_tag s). apply re_sub_tag_ind; clear s.
  - intros x H; exact H.
  - intros c rest behind M IH x H.
    apply match_tag_some in M. destruct M as (t & E & _ & _).
    rewrite E. right. apply in_or_app; right; right. apply IH; exact H.
  - intros c rest _ IH x [E|H]; [left; exact E | right; apply IH; exact H].
Qed.

(** The pattern cannot match at a character that is not ['<'], before a
    ['>'], or where no ['>'] follows. *)
Lemma match_tag_not_lt (c : char) (t : str) : c <> LT -> match_tag (c :: t) = None.
Proof.
  intros Hc. destruct t as [|d t]; [reflexivity|].
  unfold match_tag. destruct (N.eqb_spec c LT); [contradiction | reflexivity].
Qed.

Lemma match_tag_before_gt (c : char) (t : str) : match_tag (c :: GT :: t) = None.
Proof. unfold match_tag. rewrite N.eqb_refl, andb_false_r; reflexivity. Qed.

Lemma match_tag_no_gt (c : char) (t : str) : ~ In GT t -> match_tag (c :: t) = None.
Proof.
  intros H. destruct (match_tag (c :: t)) as [behind|] eqn:M; [|reflexivity].
  apply match_tag_some in M. destruct M as (u & E & _ & _).
  injection E as _ ->. exfalso; apply H.
  apply in_or_app; right; left; reflexivity.
Qed.

(** Why the pattern fails at the head of a text. *)
Lemma match_tag_none (c : char) (rest : str) :
  match_tag (c :: rest) = None ->
  c <> LT \/ (exists rest', rest = GT :: rest') \/ ~ In GT rest.
Proof.
  unfold match_tag. destruct rest as [|d rest].
  - intros _; right; right; simpl; tauto.
  - destruct (N.eqb_spec c LT) as [->|Hc]; [|intros _; left; exact Hc].
    destruct (N.eqb_spec d GT) as [->|Hd]; simpl.
    + intros _; right; left; exists rest; reflexivity.
    + intros H; right; right. apply after_gt_none in H.
      intros [E|E]; [congruence | exact (H E)].
Qed.

(** After [re.sub] the pattern matches nowhere: removing a match never
    brings the two ends of a new one together. *)
Lemma search_tag_re_sub_tag (s : str) : search_tag (re_sub_tag s) = false.
Proof.
  pattern s, (re_sub_tag s). apply re_sub_tag_ind; clear s.
  - reflexivity.
  - intros c rest behind _ IH; exact IH.
  - intros c rest M IH.
    cbn [search_tag]. rewrite IH.
    replace (match_tag (c :: re_sub_tag rest)) with (@None str); [reflexivity|].
    symmetry. destruct (match_tag_none c rest M) as [Hc | [[rest' ->] | Hg]].
    + apply match_tag_not_lt; exact Hc.
    + rewrite re_sub_tag_step, (match_tag_not_lt GT rest') by discriminate.
      apply match_tag_before_gt.
    + apply match_tag_no_gt. intros H; apply Hg.
      apply re_sub_tag_incl; exact H.
Qed.

Lemma match_tag_app (s q behind : str) :
  match_tag s = Some behind -> match_tag (s ++ q) = Some (behind ++ q).
Proof.
  rewrite !match_tag_some. intros (t & -> & Hne & Hg).
  exists t; repeat split; [|exact Hne|exact Hg].
  simpl. rewrite <- app_assoc; reflexivity.
Qed.

Lemma search_tag_app_r (s q : str) :
  search_tag s = true -> search_tag (s ++ q) = true.
Proof.
  induction s as [|c s IH]; [discriminate|].
  cbn [search_tag]. change ((c :: s) ++ q) with (c :: s ++ q) at 1.
  cbn [search_tag]. change (c :: s ++ q) with ((c :: s) ++ q).
  destruct (match_tag (c :: s)) as [behind|] eqn:M.
  - intros _. rewrite (match_tag_app _ q _ M); reflexivity.
  - intros H. destruct (match_tag ((c :: s) ++ q)); [reflexivity | exact (IH H)].
Qed.

Lemma search_tag_app_l (p s : str) :
  search_tag s = true -> search_tag (p ++ s) = true.
Proof.
  intros H. induction p as [|c p IH]; [exact H|].
  change ((c :: p) ++ s) with (c :: p ++ s). cbn [search_tag].
  destruct (match_tag (c :: p ++ s)); [reflexivity | exact IH].
Qed.

(** [search_tag] in words: somewhere in the text stands a ['<'], then a
    non-empty run without ['>'], then a ['>']. *)
Lemma search_tag_true (s : str) :
  search_tag s = true <->
  exists p t q, s = p ++ LT :: t ++ GT :: q /\ t <> [] /\ ~ In GT t.
Proof.
  split.
  - induction s as [|c s IH]; [discriminate|].
    cbn [search_tag]. destruct (match_tag (c :: s)) as [behind|] eqn:M.
    + intros _. apply match_tag_some in M. destruct M as (t & E & Ht).
      exists [], t, behind; split; [exact E | exact Ht].
    + intros H. destruct (IH H) as (p & t & q & -> & Ht).
      exists (c :: p), t, q; split; [reflexivity | exact Ht].
  - intros (p & t & q & -> & Ht). apply search_tag_app_l.
    cbn [search_tag].
    replace (match_tag (LT :: t ++ GT :: q)) with (Some q); [reflexivity|].
    symmetry; apply match_tag_some. exists t; split; [reflexivity | exact Ht].
Qed.

(** A contiguous part of a text without a match has none either. *)
Lemma search_tag_infix (p s q : str) :
  search_tag (p ++ s ++ q) = false -> search_tag s = false.
Proof.
  intros H. destruct (search_tag s) eqn:E; [|reflexivity].
  rewrite (search_tag_app_l p _ (search_tag_app_r s q E)) in H; discriminate.
Qed.

Lemma search_tag_clean_html (text : str) : search_tag (clean_html text) = false.
Proof.
  unfold clean_html. destruct (truthy text); simpl; [|reflexivity].
  destruct (strip_infix (re_sub_tag text)) as (p & q & E).
  apply (search_tag_infix p _ q). rewrite <- E. apply search_tag_re_sub_tag.
Qed.

Lemma search_tag_slice_to (n : nat) (s : str) :
  search_tag s = false -> search_tag (slice_to n s) = false.
Proof.
  intros H. apply (search_tag_infix [] _ (skipn n s)).
  simpl. rewrite <- slice_to_prefix; exact H.
Qed.

(** ** The Collector's loop *)

Lemma fetch_entries_from (name : str) (entries : list Entry) (articles : list Article) :
  fold_left (fetch_entry name) entries articles =
  articles ++ map (record_of name) (filter well_formed entries).
Proof.
  revert articles; induction entries as [|entry entries IH]; intros articles; simpl.
  - rewrite app_nil_r; reflexivity.
  - rewrite IH. unfold fetch_entry at 1. fold (well_formed entry).
    destruct (well_formed entry); simpl; [|reflexivity].
    rewrite <- app_assoc; reflexivity.
Qed.

Lemma fetch_entries_spec (name : str) (entries : list Entry) :
  fetch_entries name entries = map (record_of name) (filter well_formed entries).
Proof. unfold fetch_entries; rewrite fetch_entries_from; reflexivity. Qed.

(** What [fetch_rss] returns, for every answer of the network: no
    exception, and the records of the feed unless the fetch fails. *)
Lemma fetch_rss_outcome (answer : http_result (list Entry)) (src : Source) :
  outcome_of (fetch_rss answer src) =
  inr (match answer with
       | Raises _ => []
       | Returns response =>
           if error_status (status_code response) then []
           else match body response with
                | inl _ => []
                | inr entries => fetch_entries (name src) entries
                end
       end).
Proof.
  unfold fetch_rss, request, raise_for_status, read_body, error_status.
  destruct answer as [e | [status [e | entries]]]; simpl.
  - destruct e; reflexivity.
  - destruct ((400 <=? status)%Z && (status <? 600)%Z); [reflexivity|].
    destruct e; reflexivity.
  - destruct ((400 <=? status)%Z && (status <? 600)%Z); reflexivity.
Qed.

Lemma fetch_rss_returned (answer : http_result (list Entry)) (src : Source) :
  returned (fetch_rss answer src) =
  if fetch_fails answer then []
  else match answer with
       | Returns {| body := inr entries |} => fetch_entries (name src) entries
       | _ => []
       end.
Proof.
  unfold returned. rewrite fetch_rss_outcome.
  destruct answer as [e | [status [e | entries]]]; simpl; try reflexivity.
  - destruct (error_status status); reflexivity.
  - destruct (error_status status); reflexivity.
Qed.

Lemma fetch_rss_trace_calls (answer : http_result (list Entry)) (src : Source) :
  network_calls (trace_of (fetch_rss answer src)) = [EvGet (feed_url src) REQUEST_TIMEOUT].
Proof.
  unfold fetch_rss, request, raise_for_status, read_body.
  destruct answer as [e | [status [e | entries]]]; simpl.
  - destruct e; reflexivity.
  - destruct ((400 <=? status)%Z && (status <? 600)%Z); [reflexivity|].
    destruct e; reflexivity.
  - destruct ((400 <=? status)%Z && (status <? 600)%Z); reflexivity.
Qed.

(** ** The effect monad *)

Lemma outcome_bind {A B : Type} (m : Eff A) (k : A -> Eff B) :
  outcome_of (bind m k) =
  match outcome_of m with
  | inl e => inl e
  | inr a => outcome_of (k a)
  end.
Proof.
  destruct m as [t [e|a]]; simpl; [reflexivity|].
  destruct (k a); reflexivity.
Qed.

Lemma trace_bind {A B : Type} (m : Eff A) (k : A -> Eff B) :
  trace_of (bind m k) =
  trace_of m ++ match outcome_of m with
                | inl _ => []
                | inr a => trace_of (k a)
                end.
Proof.
  destruct m as [t [e|a]]; simpl.
  - rewrite app_nil_r; reflexivity.
  - destruct (k a); reflexivity.
Qed.

Lemma network_calls_app (t t' : list event) :
  network_calls (t ++ t') = network_calls t ++ network_calls t'.
Proof. apply filter_app. Qed.

(** ** Collecting all sources *)

Lemma records_from_app (requests_get : nat -> http_result (list Entry)) (i : nat)
    (l l' : list Source) :
  records_from requests_get i (l ++ l') =
  records_from requests_get i l ++ records_from requests_get (i + length l) l'.
Proof.
  revert i; induction l as [|src l IH]; intros i; simpl.
  - rewrite Nat.add_0_r; reflexivity.
  - rewrite IH, <- app_assoc, Nat.add_succ_r; reflexivity.
Qed.

Lemma collect_loop_outcome (requests_get : nat -> http_result (list Entry)) (n i : nat)
    (sources : list Source) (all_articles : list Article) :
  outcome_of (collect_loop requests_get n i sources all_articles) =
  inr (all_articles ++ records_from requests_get i sources).
Proof.
  revert i all_articles; induction sources as [|src rest IH]; intros i all_articles.
  - simpl. rewrite app_nil_r; reflexivity.
  - cbn [collect_loop records_from].
    rewrite outcome_bind; cbn [print emit outcome_of snd].
    rewrite outcome_bind. unfold returned.
    rewrite fetch_rss_outcome.
    rewrite outcome_bind.
    replace (outcome_of (if i <? n then sleep 1 else ret tt)) with (@inr exn unit tt)
      by (destruct (i <? n); reflexivity).
    rewrite IH, <- app_assoc; reflexivity.
Qed.

Lemma collect_loop_calls (requests_get : nat -> http_result (list Entry)) (n i : nat)
    (sources : list Source) (all_articles : list Article) :
  network_calls (trace_of (collect_loop requests_get n i sources all_articles)) =
  map (fun src => EvGet (feed_url src) REQUEST_TIMEOUT) sources.
Proof.
  revert i all_articles; induction sources as [|src rest IH]; intros i all_articles.
  - reflexivity.
  - cbn [collect_loop map].
    rewrite trace_bind; cbn [print emit trace_of outcome_of fst snd].
    rewrite trace_bind, fetch_rss_outcome, trace_bind.
    rewrite !network_calls_app, fetch_rss_trace_calls.
    replace (outcome_of (if i <? n then sleep 1 else ret tt)) with (@inr exn unit tt)
      by (destruct (i <? n); reflexivity).
    rewrite IH.
    replace (network_calls (trace_of (if i <? n then sleep 1 else ret tt))) with (@nil event)
      by (destruct (i <? n); reflexivity).
    reflexivity.
Qed.

Lemma fetch_fails_cases (answer : http_result (list Entry)) :
  fetch_fails answer = true <->
  (exists e, answer = Raises e)
  \/ (exists response, answer = Returns response
        /\ (400 <= status_code response < 600)%Z)
  \/ (exists response e, answer = Returns response /\ body response = inl e).
Proof.
  destruct answer as [e | [status b]]; simpl.
  - split; [intros _; left; exists e; reflexivity | reflexivity].
  - unfold error_status. rewrite orb_true_iff, andb_true_iff, Z.leb_le, Z.ltb_lt. split.
    + intros [H | H].
      * right; left. eexists; split; [reflexivity | exact H].
      * destruct b as [e|entries]; [|discriminate].
        right; right. do 2 eexists; split; reflexivity.
    + intros [[e E] | [(r & E & H) | (r & e & E & H)]].
      * discriminate.
      * injection E as <-. left; exact H.
      * injection E as <-. simpl in H. rewrite H. right; reflexivity.
Qed.

(** ** Claims about the Collector *)

(** C2, as stated, fails: for an entry whose description is
    [<b>x</b>], the record's [raw_summary] is that text with its tags,
    while the cleaned text, which is what [summary] holds, is [x]. *)
Lemma C2_counterexample :
  map raw_summary (returned (fetch_rss (answer_with 200 [bold_entry]) hacker_news))
  = [py "<b>x</b>"]
  /\ clean_html (py "<b>x</b>") = py "x"
  /\ py "<b>x</b>" <> py "x".
Proof.
  split; [|split].
  - vm_compute; reflexivity.
  - vm_compute; reflexivity.
  - vm_compute; discriminate.
Qed.

(** C2, amended: the [raw_summary] of every record the Collector builds
    is the summary text exactly as the feed gives it (the description,
    or else the summary), neither stripped of HTML nor truncated, and the
    record's [summary] is the cleaned text of it cut to 500 characters. *)
Theorem C2_raw_summary_is_feed_text (name : str) (entries : list Entry) :
  Forall2 (fun entry record =>
             raw_summary record = feed_text entry
             /\ summary record = slice_to 500 (clean_html (raw_summary record)))
          (filter well_formed entries)
          (fetch_entries name entries).
Proof.
  rewrite fetch_entries_spec.
  induction (filter well_formed entries) as [|entry l IH]; simpl; constructor.
  - split; reflexivity.
  - exact IH.
Qed.

(** C3, as stated, fails: in [1 < 2] no ['>'] follows the ['<'], and in
    [a > b] no ['<'] precedes the ['>']; neither text holds a tag, and
    both come out of the Collector unchanged. *)
Lemma C3_counterexample :
  map summary (returned (fetch_rss
                 (answer_with 200 [entry_with "A" "https://example.org/a" "1 < 2";
                                   entry_with "B" "https://example.org/b" "a > b"])
                 hacker_news))
  = [py "1 < 2"; py "a > b"]
  /\ In LT (py "1 < 2") /\ In GT (py "a > b").
Proof.
  split; [|split].
  - vm_compute; reflexivity.
  - vm_compute; tauto.
  - vm_compute; tauto.
Qed.

(** C3, amended: whatever the network answers, the pattern [<[^>]+>]
    matches nowhere in the [summary] of a record [fetch_rss] returns: no
    ['<'] is followed by one or more characters other than ['>'] and
    then a ['>']. *)
Theorem C3_summary_has_no_tag (answer : http_result (list Entry)) (src : Source) :
  exists articles,
    outcome_of (fetch_rss answer src) = inr articles
    /\ Forall (fun record => search_tag (summary record) = false) articles.
Proof.
  rewrite fetch_rss_outcome. eexists; split; [reflexivity|].
  assert (H : forall entries,
             Forall (fun record => search_tag (summary record) = false)
                    (fetch_entries (name src) entries)).
  { intros entries. rewrite fetch_entries_spec.
    apply Forall_map, Forall_forall. intros entry _. cbn [record_of summary].
    apply search_tag_slice_to, search_tag_clean_html. }
  destruct answer as [e | [status [e | entries]]]; simpl;
    try destruct (error_status status); auto.
Qed.

(** C7: whatever the network answers, the [summary] of every record
    [fetch_rss] returns has at most 500 characters. *)
Theorem C7_summary_at_most_500 (answer : http_result (list Entry)) (src : Source) :
  exists articles,
    outcome_of (fetch_rss answer src) = inr articles
    /\ Forall (fun record => length (summary record) <= 500) articles.
Proof.
  rewrite fetch_rss_outcome. eexists; split; [reflexivity|].
  assert (H : forall entries,
             Forall (fun record => length (summary record) <= 500)
                    (fetch_entries (name src) entries)).
  { intros entries. rewrite fetch_entries_spec.
    apply Forall_map, Forall_forall. intros entry _. cbn [record_of summary].
    apply slice_to_length. }
  destruct answer as [e | [status [e | entries]]]; simpl;
    try destruct (error_status status); auto.
Qed.

(** C6: the loop over a parsed feed returns the records of the entries
    that have a title and a link, in the order of the feed; an entry is
    left out exactly when its title or its link is empty; and this is
    what [fetch_rss] returns for a response that carries the feed, unless
    its status is an error status. *)
Theorem C6_well_formed_entries_in_order (src : Source) (status : Z) (entries : list Entry) :
  fetch_entries (name src) entries
  = map (record_of (name src)) (filter well_formed entries)
  /\ (forall entry,
        well_formed entry = false
        <-> get entry_title entry = [] \/ get entry_link entry = [])
  /\ outcome_of (fetch_rss (answer_with status entries) src)
     = inr (if error_status status then []
            else map (record_of (name src)) (filter well_formed entries)).
Proof.
  split; [apply fetch_entries_spec | split].
  - intros entry. unfold well_formed.
    rewrite andb_false_iff, !truthy_false; reflexivity.
  - unfold answer_with. rewrite fetch_rss_outcome; simpl.
    rewrite fetch_entries_spec; reflexivity.
Qed.

(** C5, as stated, fails: status 300 is not a 2xx status, yet
    [raise_for_status] lets it pass and the entries of the body are
    returned. *)
Lemma C5_counterexample :
  success_status 300 = false
  /\ outcome_of (fetch_rss
                   (answer_with 300 [entry_with "A" "https://example.org/a" "x"])
                   hacker_news)
     = inr [record_of (py "Hacker News") (entry_with "A" "https://example.org/a" "x")].
Proof. split; vm_compute; reflexivity. Qed.

(** C5, amended: when the request for a source raises (a timeout, a
    network error or anything else), answers with a status from 400 to
    599, or its body fails to parse, [fetch_rss] returns the empty list
    and raises nothing; the run over all sources returns the records of
    the sources before it followed by those of the sources after it, and
    requests every source in the configured order. *)
Theorem C5_failed_source_is_skipped (requests_get : nat -> http_result (list Entry))
    (before after : list Source) (src : Source) :
  fetch_fails (requests_get (S (length before))) = true ->
  outcome_of (fetch_rss (requests_get (S (length before))) src) = inr []
  /\ outcome_of (collect requests_get (before ++ src :: after))
     = inr (records_from requests_get 1 before
            ++ records_from requests_get (S (S (length before))) after)
  /\ network_calls (trace_of (collect requests_get (before ++ src :: after)))
     = map (fun s => EvGet (feed_url s) REQUEST_TIMEOUT) (before ++ src :: after).
Proof.
  intros Hfail.
  assert (Hsrc : returned (fetch_rss (requests_get (S (length before))) src) = []).
  { rewrite fetch_rss_returned, Hfail; reflexivity. }
  split; [|split].
  - pose proof (fetch_rss_outcome (requests_get (S (length before))) src) as H.
    unfold returned in Hsrc. rewrite H in Hsrc |- *. congruence.
  - unfold collect. rewrite collect_loop_outcome, records_from_app.
    change (1 + length before) with (S (length before)).
    cbn [records_from app]. rewrite Hsrc; reflexivity.
  - unfold collect. apply collect_loop_calls.
Qed.

Lemma C5_failed_source_is_skipped_witness :
  outcome_of (fetch_rss (second_times_out 2) v2ex) = inr []
  /\ outcome_of (collect second_times_out ([hacker_news] ++ v2ex :: [techcrunch]))
     = inr (records_from second_times_out 1 [hacker_news]
            ++ records_from second_times_out 3 [techcrunch])
  /\ network_calls (trace_of (collect second_times_out ([hacker_news] ++ v2ex :: [techcrunch])))
     = map (fun s => EvGet (feed_url s) REQUEST_TIMEOUT) ([hacker_news] ++ v2ex :: [techcrunch]).
Proof.
  apply (C5_failed_source_is_skipped second_times_out [hacker_news] [techcrunch] v2ex).
  reflexivity.
Defined.

(** ** The Summarizer *)

(** What [summarize_with_ai] returns: it never raises, and without a key
    or when the provider gives nothing it returns its [raw_summary]
    argument. *)
Lemma summarize_with_ai_outcome (cfg : Config) (groq : Groq) (title raw_summary : str) :
  outcome_of (summarize_with_ai cfg groq title raw_summary) =
  inr (if negb (truthy (GROQ_API_KEY cfg)) then raw_summary
       else if provider_fails groq title (prompt_summary raw_summary) then raw_summary
       else match chat_completions_create groq title (prompt_summary raw_summary) with
            | inr content => strip content
            | inl _ => raw_summary
            end).
Proof.
  unfold summarize_with_ai, provider_fails.
  destruct (truthy (GROQ_API_KEY cfg)); [|reflexivity].
  fold (prompt_summary raw_summary).
  destruct (groq_installed groq); [|reflexivity].
  destruct (groq_client groq) as [e|]; [destruct e; reflexivity|].
  cbn [negb orb].
  destruct (chat_completions_create groq title (prompt_summary raw_summary))
    as [e | content].
  - destruct e; reflexivity.
  - cbn. destruct (truthy (strip content)); reflexivity.
Qed.

(** The provider is only called when a key is configured. *)
Lemma summarize_with_ai_no_key (cfg : Config) (groq : Groq) (title raw_summary : str) :
  GROQ_API_KEY cfg = [] ->
  summarize_with_ai cfg groq title raw_summary = ret raw_summary.
Proof. unfold summarize_with_ai. intros ->; reflexivity. Qed.

Lemma same_but_summary_set (article : Article) (v : str) :
  same_but_summary article (set_summary article v).
Proof. repeat split. Qed.

Lemma summarize_loop_frame (cfg : Config) (groq : nat -> Groq) (n i : nat)
    (articles : list Article) :
  exists out,
    outcome_of (summarize_loop cfg groq n i articles) = inr out
    /\ Forall2 same_but_summary articles out.
Proof.
  revert i; induction articles as [|article rest IH]; intros i.
  - exists []; split; [reflexivity | constructor].
  - destruct (IH (S i)) as (out & Hout & Hframe).
    eexists; split.
    + cbn [summarize_loop].
      rewrite outcome_bind; cbn [print emit outcome_of snd].
      rewrite outcome_bind, summarize_with_ai_outcome.
      rewrite outcome_bind; cbn [print emit outcome_of snd].
      rewrite outcome_bind.
      replace (outcome_of (if i <? n then sleep 1 else ret tt)) with (@inr exn unit tt)
        by (destruct (i <? n); reflexivity).
      rewrite outcome_bind, Hout. reflexivity.
    + constructor; [apply same_but_summary_set | exact Hframe].
Qed.

(** The summary the loop writes for the article of turn [i]. *)
Lemma summarize_loop_head (cfg : Config) (groq : nat -> Groq) (n i : nat)
    (article : Article) (rest : list Article) :
  exists v out,
    outcome_of (summarize_with_ai cfg (groq i) (title article)
                  (py_or (raw_summary article) (summary article))) = inr v
    /\ outcome_of (summarize_loop cfg groq n (S i) rest) = inr out
    /\ outcome_of (summarize_loop cfg groq n i (article :: rest))
       = inr (set_summary article v :: out).
Proof.
  destruct (summarize_loop_frame cfg groq n (S i) rest) as (out & Hout & _).
  eexists; exists out; split; [apply summarize_with_ai_outcome | split; [exact Hout|]].
  cbn [summarize_loop].
  rewrite outcome_bind; cbn [print emit outcome_of snd].
  rewrite outcome_bind, summarize_with_ai_outcome.
  rewrite outcome_bind; cbn [print emit outcome_of snd].
  rewrite outcome_bind.
  replace (outcome_of (if i <? n then sleep 1 else ret tt)) with (@inr exn unit tt)
    by (destruct (i <? n); reflexivity).
  rewrite outcome_bind, Hout. reflexivity.
Qed.

(** ** Claims about the Summarizer *)

(** C1, evaluated where the code departs from it: the record the
    Collector returns for the description [<b>x</b>] has the summary [x]; with summaries
    enabled and a key configured, when the provider's request raises, and
    likewise when the groq library is missing, the Summarizer raises
    nothing and leaves that record with the summary [<b>x</b>], the
    uncleaned feed text, and not with [x]. *)
Theorem C1_failed_call_overwrites_summary :
  outcome_of (fetch_rss (answer_with 200 [bold_entry]) hacker_news) = inr [bold_article]
  /\ summary bold_article = py "x"
  /\ provider_fails groq_down (title bold_article)
       (prompt_summary (raw_summary bold_article)) = true
  /\ outcome_of (process_articles_with_ai ai_enabled (fun _ => groq_down) [bold_article])
     = inr [set_summary bold_article (py "<b>x</b>")]
  /\ provider_fails groq_missing (title bold_article)
       (prompt_summary (raw_summary bold_article)) = true
  /\ outcome_of (process_articles_with_ai ai_enabled (fun _ => groq_missing) [bold_article])
     = inr [set_summary bold_article (py "<b>x</b>")]
  /\ py "<b>x</b>" <> py "x".
Proof.
  repeat (split; [vm_compute; reflexivity|]).
  vm_compute; discriminate.
Qed.

(** C4: with the flag off or without a provider key, the Summarizer
    returns the sequence it was given and makes no call over the
    network. *)
Theorem C4_disabled_is_identity (cfg : Config) (groq : nat -> Groq) (articles : list Article) :
  ENABLE_AI_SUMMARY cfg = false \/ GROQ_API_KEY cfg = [] ->
  outcome_of (process_articles_with_ai cfg groq articles) = inr articles
  /\ network_calls (trace_of (process_articles_with_ai cfg groq articles)) = [].
Proof.
  unfold process_articles_with_ai. intros [H | H]; rewrite H.
  - split; reflexivity.
  - destruct (ENABLE_AI_SUMMARY cfg); split; reflexivity.
Qed.

Lemma C4_disabled_is_identity_witness :
  outcome_of (process_articles_with_ai ai_disabled (fun _ => groq_down) [bold_article])
  = inr [bold_article]
  /\ network_calls (trace_of (process_articles_with_ai ai_disabled (fun _ => groq_down)
                                [bold_article])) = [].
Proof.
  apply (C4_disabled_is_identity ai_disabled (fun _ => groq_down) [bold_article]).
  left; reflexivity.
Defined.

(** C9: for every configuration, provider and input sequence the
    Summarizer returns a sequence, raising nothing; it has the length of
    the input, and its article at each position has the title, url,
    source, raw_summary and external_id of the input's article there. *)
Theorem C9_only_summary_changes (cfg : Config) (groq : nat -> Groq) (articles : list Article) :
  exists out,
    outcome_of (process_articles_with_ai cfg groq articles) = inr out
    /\ length out = length articles
    /\ Forall2 same_but_summary articles out.
Proof.
  assert (Hid : Forall2 same_but_summary articles articles).
  { induction articles; constructor; [repeat split | assumption]. }
  assert (H : exists out,
             outcome_of (process_articles_with_ai cfg groq articles) = inr out
             /\ Forall2 same_but_summary articles out).
  { unfold process_articles_with_ai.
    destruct (ENABLE_AI_SUMMARY cfg); cbn [negb].
    - destruct (truthy (GROQ_API_KEY cfg)); cbn [negb].
      + rewrite outcome_bind; cbn [print emit outcome_of snd].
        apply summarize_loop_frame.
      + exists articles; split; [reflexivity | exact Hid].
    - exists articles; split; [reflexivity | exact Hid]. }
  destruct H as (out & Hout & Hframe).
  exists out; repeat split; try assumption.
  symmetry; exact (Forall2_length Hframe).
Qed.

(** After a failed provider call the loop writes the text it passed to
    [summarize_with_ai], which is the record's [raw_summary] unless that
    is empty. *)
Lemma summarize_loop_failed_call (cfg : Config) (groq : nat -> Groq) (n i : nat)
    (article : Article) (rest : list Article) :
  provider_fails (groq i) (title article)
    (prompt_summary (py_or (raw_summary article) (summary article))) = true ->
  exists out,
    outcome_of (summarize_loop cfg groq n i (article :: rest))
    = inr (set_summary article (py_or (raw_summary article) (summary article)) :: out).
Proof.
  intros Hfail.
  destruct (summarize_loop_head cfg groq n i article rest) as (v & out & Hv & _ & H).
  rewrite summarize_with_ai_outcome, Hfail in Hv.
  exists out. rewrite H. destruct (negb (truthy (GROQ_API_KEY cfg))); congruence.
Qed.

(** ** Claims about the Publisher *)

(** An empty batch is a success without a request (lines 253-254). *)
Lemma upload_articles_empty (cfg : Config) (answer : http_result json_value) :
  upload_articles cfg answer [] = ret true.
Proof. reflexivity. Qed.

Lemma upload_articles_no_bad_key (cfg : Config) (answer : http_result json_value)
    (articles : list Article) :
  (forall response, answer = Returns response -> status_code response <> 401%Z) ->
  ~ In (EvPrint MsgBadApiKey) (trace_of (upload_articles cfg answer articles)).
Proof.
  intros Hstatus. destruct articles as [|article rest]; [simpl; tauto|].
  unfold upload_articles, request, raise_for_status, read_body.
  destruct answer as [e | [status b]].
  - destruct e; absent_event.
  - specialize (Hstatus _ eq_refl). cbn [status_code] in Hstatus.
    apply Z.eqb_neq in Hstatus.
    simpl. rewrite Hstatus.
    destruct ((400 <=? status)%Z && (status <? 600)%Z); [absent_event|].
    destruct b as [e | [inserted skipped|]]; [destruct e | |]; absent_event.
Qed.

(** C8: for a non-empty batch and an answer with status 401, whatever
    its body, [upload_articles] returns [False]; it prints the HTTP error
    line and then the line about the API key; and the line about the API
    key is printed for no other answer, be it another status or an
    exception of the request. *)
Theorem C8_unauthorized_upload (cfg : Config) (b : exn + json_value)
    (article : Article) (rest : list Article) :
  upload_articles cfg (Returns {| status_code := 401; body := b |}) (article :: rest)
  = ([EvPrint (MsgUploading (length (article :: rest)));
      EvPost (API_URL cfg) (API_KEY cfg) (article :: rest) 60;
      EvPrint (MsgHttpError HTTPError);
      EvPrint MsgBadApiKey],
     inr false)
  /\ (forall answer,
        (forall response, answer = Returns response -> status_code response <> 401%Z) ->
        ~ In (EvPrint MsgBadApiKey)
             (trace_of (upload_articles cfg answer (article :: rest)))).
Proof.
  split; [reflexivity|].
  intros answer; apply upload_articles_no_bad_key.
Qed.

(** ** Claims about the configuration *)

Section EnableFlag.

Variable lower_unicode : str -> nat -> str.

(** C10: for a value [v] of the variable, summaries are enabled
    exactly when [v.lower()] is ["true"] or ["1"]; ["TRUE"], ["True"],
    ["true"] and ["1"] enable them, ["yes"], ["on"], ["0"] and the
    empty string do not; an unset variable enables them; and this is
    the flag [load_config] stores. *)
Theorem C10_enable_flag :
  (forall v,
      enable_ai_summary lower_unicode (Some v) = true
      <-> lower lower_unicode v = py "true" \/ lower lower_unicode v = py "1")
  /\ enable_ai_summary lower_unicode None = true
  /\ enable_ai_summary lower_unicode (Some (py "TRUE")) = true
  /\ enable_ai_summary lower_unicode (Some (py "True")) = true
  /\ enable_ai_summary lower_unicode (Some (py "true")) = true
  /\ enable_ai_summary lower_unicode (Some (py "1")) = true
  /\ enable_ai_summary lower_unicode (Some (py "yes")) = false
  /\ enable_ai_summary lower_unicode (Some (py "on")) = false
  /\ enable_ai_summary lower_unicode (Some (py "0")) = false
  /\ enable_ai_summary lower_unicode (Some []) = false
  /\ (forall environ,
        ENABLE_AI_SUMMARY (load_config lower_unicode environ)
        = enable_ai_summary lower_unicode (environ "ENABLE_AI_SUMMARY"%string)).
Proof.
  split.
  { intros v. unfold enable_ai_summary.
    rewrite orb_true_iff, !str_eqb_eq; reflexivity. }
  repeat split; vm_compute; reflexivity.
Qed.

End EnableFlag.

(** * Further properties of the code *)

(** ** [clean_html] (lines 130-135) *)

Lemma lstrip_head (s : str) :
  match lstrip s with
  | [] => True
  | c :: _ => isspace c = false
  end.
Proof.
  induction s as [|c s IH]; simpl; [exact I|].
  destruct (isspace c) eqn:E; [exact IH | exact E].
Qed.

Lemma lstrip_fixed (s : str) :
  match s with [] => True | c :: _ => isspace c = false end -> lstrip s = s.
Proof. destruct s as [|c s]; simpl; [reflexivity | intros ->; reflexivity]. Qed.

Lemma trimmed_strip (s : str) : trimmed (strip s) = true.
Proof.
  unfold trimmed, strip. apply andb_true_iff; split.
  - destruct (rstrip_prefix (lstrip s)) as [q E].
    pose proof (lstrip_head s) as H. rewrite E in H.
    destruct (rstrip (lstrip s)) as [|c r]; [reflexivity|].
    simpl in H. rewrite H; reflexivity.
  - unfold rstrip. rewrite rev_involutive.
    pose proof (lstrip_head (rev (lstrip s))) as H.
    destruct (lstrip (rev (lstrip s))) as [|c r]; [reflexivity|].
    rewrite H; reflexivity.
Qed.

Lemma strip_trimmed (s : str) : trimmed s = true -> strip s = s.
Proof.
  unfold trimmed, strip, rstrip. intros H.
  apply andb_true_iff in H. destruct H as [Hh Hl].
  rewrite (lstrip_fixed s), (lstrip_fixed (rev s)), rev_involutive; try reflexivity.
  - destruct (rev s) as [|c r]; [exact I | apply negb_true_iff; exact Hl].
  - destruct s as [|c r]; [exact I | apply negb_true_iff; exact Hh].
Qed.

Lemma re_sub_tag_no_match (s : str) : search_tag s = false -> re_sub_tag s = s.
Proof.
  induction s as [|c s IH]; [reflexivity|].
  cbn [search_tag]. rewrite re_sub_tag_step.
  destruct (match_tag (c :: s)); [discriminate|].
  intros H; rewrite (IH H); reflexivity.
Qed.

Lemma search_tag_no_lt (s : str) : ~ In LT s -> search_tag s = false.
Proof.
  induction s as [|c s IH]; [reflexivity|].
  intros H. cbn [search_tag].
  rewrite match_tag_not_lt.
  - apply IH. intros E; apply H; right; exact E.
  - intros E; apply H; left; exact E.
Qed.

Lemma contains_false (c : char) (s : str) : contains c s = false <-> ~ In c s.
Proof.
  unfold contains. induction s as [|x s IH]; simpl.
  - tauto.
  - rewrite orb_false_iff, IH, N.eqb_neq. split.
    + intros [Hx Hs] [E | E]; [congruence | exact (Hs E)].
    + intros H; split; [intros E; apply H; left; congruence
                       | intros E; apply H; right; exact E].
Qed.

Lemma re_sub_tag_length (s : str) : length (re_sub_tag s) <= length s.
Proof.
  pattern s, (re_sub_tag s). apply re_sub_tag_ind; clear s.
  - reflexivity.
  - intros c rest behind M IH. apply match_tag_shorter in M. lia.
  - intros c rest _ IH. simpl; lia.
Qed.

Lemma strip_length (s : str) : length (strip s) <= length s.
Proof.
  destruct (strip_infix s) as (p & q & E).
  rewrite E at 2. rewrite !length_app; lia.
Qed.

Lemma strip_incl (s : str) (c : char) : In c (strip s) -> In c s.
Proof.
  destruct (strip_infix s) as (p & q & E). intros H.
  rewrite E. apply in_or_app; right. apply in_or_app; left; exact H.
Qed.

(** X1: cleaning a cleaned text changes nothing. *)
Theorem X1_clean_html_idempotent (text : str) :
  clean_html (clean_html text) = clean_html text.
Proof.
  assert (H : search_tag (clean_html text) = false /\ trimmed (clean_html text) = true).
  { split; [apply search_tag_clean_html|].
    unfold clean_html. destruct (truthy text); [apply trimmed_strip | reflexivity]. }
  destruct H as [Htag Htrim].
  unfold clean_html at 1. destruct (truthy (clean_html text)) eqn:E.
  - cbn [negb]. rewrite (re_sub_tag_no_match _ Htag). apply strip_trimmed; exact Htrim.
  - cbn [negb]. apply truthy_false in E. symmetry; exact E.
Qed.

(** X2: a cleaned text neither begins nor ends with a white-space
    character, and no longer holds a tag. *)
Theorem X2_clean_html_trimmed (text : str) :
  trimmed (clean_html text) = true /\ search_tag (clean_html text) = false.
Proof.
  split; [|apply search_tag_clean_html].
  unfold clean_html. destruct (truthy text); [apply trimmed_strip | reflexivity].
Qed.

(** X3: a text without ['<'] is only trimmed. *)
Theorem X3_clean_html_without_lt (text : str) :
  ~ In LT text -> clean_html text = strip text.
Proof.
  intros H. unfold clean_html. destruct text as [|c text]; [reflexivity|].
  cbn [truthy negb]. rewrite (re_sub_tag_no_match _ (search_tag_no_lt _ H)); reflexivity.
Qed.

Lemma X3_clean_html_without_lt_witness :
  clean_html (py " a > b ") = strip (py " a > b ").
Proof.
  apply (X3_clean_html_without_lt (py " a > b ")).
  vm_compute. intros H; repeat (destruct H as [H | H]; [discriminate H|]); exact H.
Defined.

(** X4: up to its first tag a text is kept, the tag is dropped, and the
    rest is cleaned in the same way: when [before] has no ['<'] and
    [inside] is non-empty without ['>'], cleaning
    [before <inside> behind] gives the trimmed [before] followed by what
    [re.sub] leaves of [behind]. *)
Theorem X4_clean_html_first_tag (before inside behind : str) :
  ~ In LT before -> inside <> [] -> ~ In GT inside ->
  clean_html (before ++ LT :: inside ++ GT :: behind)
  = strip (before ++ re_sub_tag behind).
Proof.
  intros Hb Hne Hg.
  assert (E : re_sub_tag (before ++ LT :: inside ++ GT :: behind)
              = before ++ re_sub_tag behind).
  { induction before as [|c before IH].
    - simpl app. rewrite re_sub_tag_step.
      replace (match_tag (LT :: inside ++ GT :: behind)) with (Some behind); [reflexivity|].
      symmetry; apply match_tag_some. exists inside; auto.
    - change ((c :: before) ++ LT :: inside ++ GT :: behind)
        with (c :: (before ++ LT :: inside ++ GT :: behind)).
      rewrite re_sub_tag_step, match_tag_not_lt.
      + rewrite IH; [reflexivity|]. intros H; apply Hb; right; exact H.
      + intros H; apply Hb; left; exact H. }
  unfold clean_html.
  destruct (before ++ LT :: inside ++ GT :: behind) eqn:D.
  - destruct before; discriminate.
  - rewrite <- D. cbn [truthy negb]. rewrite <- E, D. reflexivity.
Qed.

Lemma X4_clean_html_first_tag_witness :
  clean_html (py "Hi " ++ LT :: py "br/" ++ GT :: py "<b>there</b> ")
  = strip (py "Hi " ++ re_sub_tag (py "<b>there</b> ")).
Proof.
  apply (X4_clean_html_first_tag (py "Hi ") (py "br/") (py "<b>there</b> ")).
  - vm_compute. intros H; repeat (destruct H as [H | H]; [discriminate H|]); exact H.
  - discriminate.
  - vm_compute. intros H; repeat (destruct H as [H | H]; [discriminate H|]); exact H.
Defined.

(** X5: cleaning never lengthens a text and only keeps characters of
    it. *)
Theorem X5_clean_html_shrinks (text : str) :
  length (clean_html text) <= length text
  /\ (forall c, In c (clean_html text) -> In c text).
Proof.
  unfold clean_html. destruct (truthy text); cbn [negb].
  - split.
    + etransitivity; [apply strip_length | apply re_sub_tag_length].
    + intros c H. apply re_sub_tag_incl, strip_incl; exact H.
  - split; [simpl; lia | intros c []].
Qed.

(** ** [fetch_rss] (lines 138-201) *)

Lemma truthy_true (s : str) : truthy s = true <-> s <> [].
Proof. destruct s; simpl; split; congruence. Qed.

Lemma fetch_entries_invariant (P : Article -> Prop) (name : str) (entries : list Entry) :
  (forall entry, well_formed entry = true -> P (record_of name entry)) ->
  Forall P (fetch_entries name entries).
Proof.
  intros H. rewrite fetch_entries_spec.
  apply Forall_map, Forall_forall. intros entry Hin.
  apply filter_In in Hin. apply H, Hin.
Qed.

(** Every record [fetch_rss] returns satisfies what the records of a
    feed satisfy. *)
Lemma fetch_rss_invariant (P : Article -> Prop) (answer : http_result (list Entry))
    (src : Source) :
  (forall entry, well_formed entry = true -> P (record_of (name src) entry)) ->
  Forall P (returned (fetch_rss answer src)).
Proof.
  intros H. unfold returned. rewrite fetch_rss_outcome.
  destruct answer as [e | [status [e | entries]]]; simpl;
    try destruct (error_status status); try constructor.
  apply fetch_entries_invariant; exact H.
Qed.

(** X6: every record [fetch_rss] returns has a non-empty title and a
    non-empty url, its external_id is its url, and its source is the
    name of the source fetched. *)
Theorem X6_fetch_rss_record_fields (answer : http_result (list Entry)) (src : Source) :
  Forall (fun record =>
            title record <> [] /\ url record <> []
            /\ external_id record = url record
            /\ source record = name src)
         (returned (fetch_rss answer src)).
Proof.
  apply fetch_rss_invariant. intros entry H.
  unfold well_formed in H. apply andb_true_iff in H. destruct H as [Ht Hl].
  cbn [record_of title url external_id source].
  repeat split; apply truthy_true; assumption.
Qed.

(** X7: the trace of [fetch_rss].  Whatever the network answers, it
    sends exactly one GET request, to the source's url with the 30
    seconds timeout, and prints exactly one closing line.  For a fetch
    that fails this is a diagnostic: a timeout is reported as a timeout,
    another exception of [requests] as a network error and any other
    exception as a parse error, whether the request or the parsing of
    the body raised it, and an error status as the network error
    [HTTPError].  Otherwise it is the number of records returned. *)
Theorem X7_fetch_rss_trace (src : Source) (e : exn) (status : Z) (b : exn + list Entry) :
  trace_of (fetch_rss (Raises e) src)
  = [EvPrint (MsgFetching (name src) (feed_url src));
     EvGet (feed_url src) 30;
     EvPrint (failure_line (feed_url src) e)]
  /\ trace_of (fetch_rss (Returns {| status_code := status; body := b |}) src)
     = [EvPrint (MsgFetching (name src) (feed_url src));
        EvGet (feed_url src) 30;
        EvPrint (if error_status status then MsgNetworkError HTTPError
                 else match b with
                      | inl e' => failure_line (feed_url src) e'
                      | inr entries =>
                          MsgFetched (length (returned
                            (fetch_rss (Returns {| status_code := status; body := b |}) src)))
                      end)].
Proof.
  split.
  - unfold fetch_rss, request. destruct e; reflexivity.
  - unfold returned. rewrite fetch_rss_outcome.
    unfold fetch_rss, request, raise_for_status, read_body, error_status. simpl.
    destruct ((400 <=? status)%Z && (status <? 600)%Z); [reflexivity|].
    destruct b as [e' | entries]; [destruct e'|]; reflexivity.
Qed.

(** ** [summarize_with_ai] and [process_articles_with_ai] (lines 66-122, 204-240) *)

Lemma summarize_with_ai_calls (cfg : Config) (groq : Groq) (title raw_summary : str) :
  network_calls (trace_of (summarize_with_ai cfg groq title raw_summary))
  = if reaches_provider cfg groq
    then [EvGroq title (prompt_summary raw_summary)]
    else [].
Proof.
  unfold summarize_with_ai, reaches_provider.
  destruct (truthy (GROQ_API_KEY cfg)); [|reflexivity].
  fold (prompt_summary raw_summary).
  destruct (groq_installed groq); [|reflexivity].
  destruct (groq_client groq) as [e|]; [destruct e; reflexivity|].
  destruct (chat_completions_create groq title (prompt_summary raw_summary))
    as [e | content].
  - destruct e; reflexivity.
  - cbn. destruct (truthy (strip content)); reflexivity.
Qed.


Lemma summarize_with_ai_new_summary (cfg : Config) (groq : Groq) (article : Article) :
  outcome_of (summarize_with_ai cfg groq (title article)
                (py_or (raw_summary article) (summary article)))
  = inr (new_summary cfg groq article).
Proof. apply summarize_with_ai_outcome. Qed.

Lemma prompt_summary_no_tag (raw_summary : str) :
  search_tag (prompt_summary raw_summary) = false.
Proof.
  unfold prompt_summary. apply search_tag_slice_to.
  set (text := if contains LT raw_summary then re_sub_tag raw_summary else raw_summary).
  assert (H : search_tag text = false).
  { subst text. destruct (contains LT raw_summary) eqn:E.
    - apply search_tag_re_sub_tag.
    - apply search_tag_no_lt, contains_false; exact E. }
  destruct (strip_infix text) as (p & q & E).
  apply (search_tag_infix p _ q). rewrite <- E; exact H.
Qed.

(** X8: [summarize_with_ai] calls the provider at most once: exactly
    once when a key is configured, the groq library is installed and
    the client is built, and not at all otherwise (no key, a missing
    library, or [Groq(api_key=...)] raising); the text it sends has at
    most 1000 characters and holds no tag. *)
Theorem X8_provider_request (cfg : Config) (groq : Groq) (title raw_summary : str) :
  network_calls (trace_of (summarize_with_ai cfg groq title raw_summary))
  = (if reaches_provider cfg groq
     then [EvGroq title (prompt_summary raw_summary)]
     else [])
  /\ (reaches_provider cfg groq = true
      <-> GROQ_API_KEY cfg <> [] /\ groq_installed groq = true /\ groq_client groq = None)
  /\ length (prompt_summary raw_summary) <= 1000
  /\ search_tag (prompt_summary raw_summary) = false.
Proof.
  split; [apply summarize_with_ai_calls | split; [|split]].
  - unfold reaches_provider. rewrite !andb_true_iff, truthy_true.
    destruct (groq_client groq); split; intros [[Hk Hi] Hc] || intros [Hk [Hi Hc]];
      try discriminate; auto.
  - unfold prompt_summary; apply slice_to_length.
  - apply prompt_summary_no_tag.
Qed.

(** The loop, whatever the provider does. *)
Lemma summarize_loop_outcome (cfg : Config) (groq : nat -> Groq) (n i : nat)
    (articles : list Article) :
  outcome_of (summarize_loop cfg groq n i articles)
  = inr (rewritten_from cfg groq i articles).
Proof.
  revert i; induction articles as [|article rest IH]; intros i; [reflexivity|].
  cbn [summarize_loop rewritten_from].
  rewrite outcome_bind; cbn [print emit outcome_of snd].
  rewrite outcome_bind, summarize_with_ai_new_summary.
  rewrite outcome_bind; cbn [print emit outcome_of snd].
  rewrite outcome_bind.
  replace (outcome_of (if i <? n then sleep 1 else ret tt)) with (@inr exn unit tt)
    by (destruct (i <? n); reflexivity).
  rewrite outcome_bind, IH. reflexivity.
Qed.

Lemma rewritten_from_nth (cfg : Config) (groq : nat -> Groq) (i k : nat)
    (articles : list Article) :
  nth_error (rewritten_from cfg groq i articles) k
  = option_map (fun article => set_summary article (new_summary cfg (groq (i + k)) article))
               (nth_error articles k).
Proof.
  revert i k; induction articles as [|article rest IH]; intros i [|k]; simpl;
    try reflexivity.
  - rewrite Nat.add_0_r; reflexivity.
  - rewrite IH, Nat.add_succ_r; reflexivity.
Qed.

Lemma process_enabled (cfg : Config) (groq : nat -> Groq) (articles : list Article) :
  ENABLE_AI_SUMMARY cfg = true -> GROQ_API_KEY cfg <> [] ->
  process_articles_with_ai cfg groq articles
  = (print (MsgAiStart (length articles)) ;;
     summarize_loop cfg groq (length articles) 1 articles).
Proof.
  intros He Hk. unfold process_articles_with_ai. rewrite He.
  apply truthy_true in Hk. rewrite Hk. reflexivity.
Qed.

(** X9: with summaries enabled and a key, the Summarizer returns, for
    every provider, the input with the summary at each position [k]
    replaced by what the provider's turn [k+1] gives for that record:
    the stripped content when the call succeeds with a non-empty one,
    else the record's raw_summary, or its old summary when the
    raw_summary is empty.  No record's summary depends on another
    record or another turn. *)
Theorem X9_summarizer_by_position (cfg : Config) (groq : nat -> Groq)
    (articles : list Article) :
  ENABLE_AI_SUMMARY cfg = true -> GROQ_API_KEY cfg <> [] ->
  exists out,
    outcome_of (process_articles_with_ai cfg groq articles) = inr out
    /\ forall k,
         nth_error out k
         = option_map (fun article =>
                         set_summary article (new_summary cfg (groq (S k)) article))
                      (nth_error articles k).
Proof.
  intros He Hk. rewrite (process_enabled cfg groq articles He Hk).
  rewrite outcome_bind; cbn [print emit outcome_of snd].
  rewrite summarize_loop_outcome. eexists; split; [reflexivity|].
  intros k. apply rewritten_from_nth.
Qed.

Lemma X9_summarizer_by_position_witness :
  exists out,
    outcome_of (process_articles_with_ai ai_enabled (fun _ => groq_says " Short. ")
                  [bold_article]) = inr out
    /\ forall k,
         nth_error out k
         = option_map (fun article =>
                         set_summary article
                           (new_summary ai_enabled (groq_says " Short. ") article))
                      (nth_error [bold_article] k).
Proof.
  apply (X9_summarizer_by_position ai_enabled (fun _ => groq_says " Short. ") [bold_article]).
  - reflexivity.
  - discriminate.
Defined.

Lemma new_summary_nonempty (cfg : Config) (groq : Groq) (article : Article) :
  summary article <> [] -> new_summary cfg groq article <> [].
Proof.
  intros H. unfold new_summary.
  assert (Hg : py_or (raw_summary article) (summary article) <> []).
  { unfold py_or. destruct (raw_summary article); [exact H | discriminate]. }
  destruct (negb (truthy (GROQ_API_KEY cfg))); [exact Hg|].
  unfold provider_fails. destruct (groq_installed groq); [|exact Hg].
  destruct (groq_client groq); [exact Hg|]. cbn [negb orb].
  destruct (chat_completions_create groq (title article) _) as [e | content];
    [exact Hg|].
  destruct (truthy (strip content)) eqn:E; [|exact Hg].
  apply truthy_true; exact E.
Qed.

(** X10: the Summarizer never empties a summary: when every record of
    the input has a non-empty summary, so has every record it returns,
    whatever the configuration and the provider. *)
Theorem X10_summaries_stay_non_empty (cfg : Config) (groq : nat -> Groq)
    (articles : list Article) :
  Forall (fun article => summary article <> []) articles ->
  exists out,
    outcome_of (process_articles_with_ai cfg groq articles) = inr out
    /\ Forall (fun article => summary article <> []) out.
Proof.
  intros H. unfold process_articles_with_ai.
  destruct (ENABLE_AI_SUMMARY cfg); cbn [negb];
    [destruct (truthy (GROQ_API_KEY cfg)); cbn [negb]|];
    try (exists articles; split; [reflexivity | exact H]).
  rewrite outcome_bind; cbn [print emit outcome_of snd].
  rewrite summarize_loop_outcome. eexists; split; [reflexivity|].
  generalize 1. induction H as [|article rest Ha _ IH]; intros i; simpl; constructor.
  - apply new_summary_nonempty; exact Ha.
  - apply IH.
Qed.

Lemma X10_summaries_stay_non_empty_witness :
  exists out,
    outcome_of (process_articles_with_ai ai_enabled (fun _ => groq_says "   ")
                  [bold_article]) = inr out
    /\ Forall (fun article => summary article <> []) out.
Proof.
  apply (X10_summaries_stay_non_empty ai_enabled (fun _ => groq_says "   ") [bold_article]).
  constructor; [discriminate | constructor].
Defined.

Lemma filter_trace_bind {A B : Type} (f : event -> bool) (m : Eff A) (k : A -> Eff B) :
  filter f (trace_of (bind m k))
  = filter f (trace_of m)
    ++ match outcome_of m with
       | inl _ => []
       | inr a => filter f (trace_of (k a))
       end.
Proof.
  rewrite trace_bind, filter_app. destruct (outcome_of m); reflexivity.
Qed.




Lemma summarize_loop_calls (cfg : Config) (groq : nat -> Groq) (n i : nat)
    (articles : list Article) :
  (forall j, reaches_provider cfg (groq j) = true) ->
  network_calls (trace_of (summarize_loop cfg groq n i articles))
  = map groq_call articles.
Proof.
  intros Hreach.
  revert i; induction articles as [|article rest IH]; intros i; [reflexivity|].
  cbn [summarize_loop map]. unfold network_calls in *.
  rewrite filter_trace_bind; cbn [print emit trace_of outcome_of fst snd filter is_network].
  rewrite filter_trace_bind, summarize_with_ai_new_summary.
  fold (network_calls (trace_of (summarize_with_ai cfg (groq i) (title article)
          (py_or (raw_summary article) (summary article))))).
  rewrite summarize_with_ai_calls, Hreach.
  rewrite filter_trace_bind; cbn [print emit trace_of outcome_of fst snd filter is_network].
  rewrite filter_trace_bind.
  replace (outcome_of (if i <? n then sleep 1 else ret tt)) with (@inr exn unit tt)
    by (destruct (i <? n); reflexivity).
  replace (filter is_network (trace_of (if i <? n then sleep 1 else ret tt)))
    with (@nil event) by (destruct (i <? n); reflexivity).
  rewrite filter_trace_bind, summarize_loop_outcome, IH.
  cbn [ret trace_of fst filter app]. rewrite app_nil_r. reflexivity.
Qed.

(** The client cannot be built (line 83): the exception is caught, no
    request is sent, and the text given comes back. *)
Example summarize_with_ai_without_client :
  summarize_with_ai ai_enabled groq_no_client (py "A") (py "<b>x</b>")
  = ([EvPrint (MsgAiFailed Exception)], inr (py "<b>x</b>")).
Proof. vm_compute; reflexivity. Qed.

(** X12: with summaries enabled, a key, and the groq library installed
    and its client built at every turn, the Summarizer sends exactly
    one request per record, in the order of the records, each with the
    record's title and the cleaned text of its raw_summary (of its
    summary when the raw_summary is empty), whether or not earlier
    requests failed. *)
Theorem X12_summarizer_requests (cfg : Config) (groq : nat -> Groq)
    (articles : list Article) :
  ENABLE_AI_SUMMARY cfg = true -> GROQ_API_KEY cfg <> [] ->
  (forall i, groq_installed (groq i) = true /\ groq_client (groq i) = None) ->
  network_calls (trace_of (process_articles_with_ai cfg groq articles))
  = map groq_call articles.
Proof.
  intros He Hk Hinst. rewrite (process_enabled cfg groq articles He Hk).
  unfold network_calls.
  rewrite filter_trace_bind; cbn [print emit trace_of outcome_of fst snd filter is_network].
  apply summarize_loop_calls. intros j.
  unfold reaches_provider. destruct (Hinst j) as [-> ->].
  apply truthy_true in Hk. rewrite Hk; reflexivity.
Qed.

Lemma X12_summarizer_requests_witness :
  network_calls (trace_of (process_articles_with_ai ai_enabled (fun _ => groq_down)
                             [bold_article; bold_article]))
  = map groq_call [bold_article; bold_article].
Proof.
  apply (X12_summarizer_requests ai_enabled (fun _ => groq_down)
           [bold_article; bold_article]).
  - reflexivity.
  - discriminate.
  - intros i; split; reflexivity.
Defined.

(** ** [upload_articles] (lines 243-283) *)

Lemma upload_articles_calls (cfg : Config) (answer : http_result json_value)
    (articles : list Article) :
  network_calls (trace_of (upload_articles cfg answer articles))
  = match articles with
    | [] => []
    | _ :: _ => [EvPost (API_URL cfg) (API_KEY cfg) articles 60]
    end.
Proof.
  destruct articles as [|article rest]; [reflexivity|].
  unfold upload_articles, request, raise_for_status, read_body.
  destruct answer as [e | [status b]].
  - destruct e; reflexivity.
  - simpl. destruct ((400 <=? status)%Z && (status <? 600)%Z).
    + destruct (status =? 401)%Z; reflexivity.
    + destruct b as [e | [inserted skipped|]]; [destruct e | |]; try reflexivity.
      simpl. destruct (status =? 401)%Z; reflexivity.
Qed.

(** X13: [upload_articles] sends no request and prints nothing for an
    empty batch, which it reports as a success; for any other batch it
    sends exactly one POST, to the configured address with the
    configured key, the whole batch as its body and the 60 seconds
    timeout, whatever the answer: it never tries again. *)
Theorem X13_upload_one_request (cfg : Config) (answer : http_result json_value)
    (articles : list Article) :
  upload_articles cfg answer [] = ([], inr true)
  /\ network_calls (trace_of (upload_articles cfg answer articles))
     = match articles with
       | [] => []
       | _ :: _ => [EvPost (API_URL cfg) (API_KEY cfg) articles 60]
       end.
Proof. split; [reflexivity | apply upload_articles_calls]. Qed.

(** X14: [upload_articles] returns [True] exactly for the empty batch
    and for an answer whose status is outside 400-599 and whose body
    reads as a JSON object; the status need not be a 2xx one. *)
Theorem X14_upload_success (cfg : Config) (answer : http_result json_value)
    (articles : list Article) :
  outcome_of (upload_articles cfg answer articles) = inr true
  <-> articles = []
      \/ exists status inserted skipped,
           answer = answer_with status (JsonObject inserted skipped)
           /\ error_status status = false.
Proof.
  destruct articles as [|article rest].
  - split; [intros _; left; reflexivity | reflexivity].
  - unfold upload_articles, request, raise_for_status, read_body, answer_with, error_status.
    destruct answer as [e | [status b]].
    + split.
      * destruct e; discriminate.
      * intros [E | (s & i & k & E & _)]; discriminate.
    + simpl. destruct ((400 <=? status)%Z && (status <? 600)%Z) eqn:Es.
      * split.
        -- destruct (status =? 401)%Z; discriminate.
        -- intros [E | (s & i & k & E & Hs)]; [discriminate|].
           injection E as <- _. congruence.
      * destruct b as [e | [inserted skipped|]].
        -- split.
           ++ destruct e; simpl; try discriminate.
              destruct (status =? 401)%Z; discriminate.
           ++ intros [E | (s & i & k & E & _)]; discriminate.
        -- split; [|reflexivity]. intros _; right.
           exists status, inserted, skipped; split; [reflexivity | exact Es].
        -- split; [discriminate|].
           intros [E | (s & i & k & E & _)]; discriminate.
Qed.

(** X15: which exceptions leave [upload_articles], for a non-empty
    batch.  When the request raises a timeout or another exception of
    [requests], it returns [False]; any other exception goes on to the
    caller, and so does a new exception when the request itself raises
    [HTTPError], since the handler then reads a response that was never
    bound.  When reading the body of an accepted answer raises, an
    exception of [requests] gives [False] and any other goes on to the
    caller; a body that is no JSON object raises as well. *)
Theorem X15_upload_exceptions (cfg : Config) (e : exn) (status : Z)
    (article : Article) (rest : list Article) :
  outcome_of (upload_articles cfg (Raises e) (article :: rest))
  = match e with
    | RequestException | Timeout => inr false
    | HTTPError => inl Exception
    | Exception | ImportError => inl e
    end
  /\ outcome_of (upload_articles cfg
                   (Returns {| status_code := status; body := inl e |}) (article :: rest))
     = (if error_status status then inr false
        else match e with
             | RequestException | Timeout | HTTPError => inr false
             | Exception | ImportError => inl e
             end)
  /\ outcome_of (upload_articles cfg (answer_with status JsonOther) (article :: rest))
     = (if error_status status then inr false else inl Exception).
Proof.
  unfold upload_articles, request, raise_for_status, read_body, answer_with, error_status.
  split; [|split].
  - destruct e; reflexivity.
  - simpl. destruct ((400 <=? status)%Z && (status <? 600)%Z).
    + destruct (status =? 401)%Z; reflexivity.
    + destruct e; simpl; try reflexivity. destruct (status =? 401)%Z; reflexivity.
  - simpl. destruct ((400 <=? status)%Z && (status <? 600)%Z); [|reflexivity].
    destruct (status =? 401)%Z; reflexivity.
Qed.

(** ** Collecting all sources ([main], lines 313-323) *)



Lemma records_from_invariant (P : Article -> Prop)
    (requests_get : nat -> http_result (list Entry)) (i : nat) (sources : list Source) :
  (forall src entry, In src sources -> well_formed entry = true ->
                     P (record_of (name src) entry)) ->
  Forall P (records_from requests_get i sources).
Proof.
  revert i; induction sources as [|src rest IH]; intros i H; [constructor|].
  cbn [records_from]. apply Forall_app; split.
  - apply fetch_rss_invariant. intros entry; apply H; left; reflexivity.
  - apply IH. intros s entry Hs; apply H; right; exact Hs.
Qed.

(** X16: the batch.  Whatever the network answers for each source,
    collecting raises nothing, and every record of the batch has a
    non-empty title and url, its url as external_id, the name of a
    configured source as source, and as summary the cleaned text of its
    raw_summary cut to 500 characters: at most 500 characters, without a
    tag. *)
Theorem X16_batch_invariant (requests_get : nat -> http_result (list Entry))
    (sources : list Source) :
  exists batch,
    outcome_of (collect requests_get sources) = inr batch
    /\ Forall (fun record =>
                 title record <> [] /\ url record <> []
                 /\ external_id record = url record
                 /\ In (source record) (map name sources)
                 /\ summary record = slice_to 500 (clean_html (raw_summary record))
                 /\ length (summary record) <= 500
                 /\ search_tag (summary record) = false)
              batch.
Proof.
  unfold collect. rewrite collect_loop_outcome. eexists; split; [reflexivity|].
  cbn [app]. apply records_from_invariant. intros src entry Hsrc H.
  unfold well_formed in H. apply andb_true_iff in H. destruct H as [Ht Hl].
  cbn [record_of title url external_id source summary raw_summary].
  repeat split.
  - apply truthy_true; exact Ht.
  - apply truthy_true; exact Hl.
  - apply in_map; exact Hsrc.
  - apply slice_to_length.
  - apply search_tag_slice_to, search_tag_clean_html.
Qed.


(** ** [main] (lines 286-346) *)

Lemma starts_with_true (prefix s : str) :
  starts_with prefix s = true <-> exists q, s = prefix ++ q.
Proof.
  revert s; induction prefix as [|x prefix IH]; intros s.
  - split; [intros _; exists s; reflexivity | reflexivity].
  - destruct s as [|y s]; simpl.
    + split; [discriminate | intros [q E]; discriminate].
    + rewrite andb_true_iff, N.eqb_eq, IH. split.
      * intros [-> [q ->]]; exists q; reflexivity.
      * intros [q E]; injection E as -> ->. split; [reflexivity | exists q; reflexivity].
Qed.

(** [needle in haystack]: the needle stands somewhere in the haystack. *)
Lemma substring_in_true (needle haystack : str) :
  substring_in needle haystack = true <-> exists p q, haystack = p ++ needle ++ q.
Proof.
  induction haystack as [|c haystack IH].
  - cbn [substring_in]. rewrite orb_false_r, starts_with_true. split.
    + intros [q E]; exists [], q; exact E.
    + intros (p & q & E). destruct p; [exists q; exact E | discriminate].
  - cbn [substring_in]. rewrite orb_true_iff, starts_with_true, IH. split.
    + intros [[q E] | (p & q & E)].
      * exists [], q; exact E.
      * exists (c :: p), q; rewrite E; reflexivity.
    + intros ([|x p] & q & E).
      * left; exists q; exact E.
      * right. injection E as _ E. exists p, q; exact E.
Qed.

Lemma process_outcome (cfg : Config) (groq : nat -> Groq) (articles : list Article) :
  outcome_of (process_articles_with_ai cfg groq articles)
  = inr (summarized cfg groq articles).
Proof.
  unfold process_articles_with_ai, summarized.
  destruct (ENABLE_AI_SUMMARY cfg); cbn [negb andb]; [|reflexivity].
  destruct (truthy (GROQ_API_KEY cfg)); cbn [negb]; [|reflexivity].
  rewrite outcome_bind; cbn [print emit outcome_of snd].
  apply summarize_loop_outcome.
Qed.

Lemma rewritten_from_frame (cfg : Config) (groq : nat -> Groq) (i : nat)
    (articles : list Article) :
  Forall2 same_but_summary articles (rewritten_from cfg groq i articles).
Proof.
  revert i; induction articles as [|article rest IH]; intros i; simpl; constructor.
  - apply same_but_summary_set.
  - apply IH.
Qed.

Lemma summarized_frame (cfg : Config) (groq : nat -> Groq) (articles : list Article) :
  Forall2 same_but_summary articles (summarized cfg groq articles).
Proof.
  unfold summarized.
  destruct (ENABLE_AI_SUMMARY cfg && truthy (GROQ_API_KEY cfg)).
  - apply rewritten_from_frame.
  - induction articles; constructor; [repeat split | assumption].
Qed.

Lemma stage_events_app (t t' : list run_event) :
  stage_events (t ++ t') = stage_events t ++ stage_events t'.
Proof.
  induction t as [|[ev | m] t IH]; simpl; [reflexivity | f_equal; exact IH | exact IH].
Qed.

Lemma stage_events_stage (t : list event) : stage_events (map Stage t) = t.
Proof. induction t as [|ev t IH]; simpl; [reflexivity | f_equal; exact IH]. Qed.

Lemma config_ok_tests (cfg : Config) :
  config_ok cfg = true ->
  missing_or_placeholder (py "YOUR_WORKER_URL") (API_URL cfg) = false
  /\ missing_or_placeholder (py "YOUR_API_KEY") (API_KEY cfg) = false.
Proof.
  unfold config_ok. rewrite andb_true_iff, !negb_true_iff. tauto.
Qed.

(** X18: a configuration with an empty address or key, or with a
    placeholder in one of them, ends the run with [sys.exit(1)] before
    any stage runs: no request, no sleep, only lines of [main]. *)
Theorem X18_main_refuses_bad_config (cfg : Config) (sources : list Source)
    (requests_get : nat -> http_result (list Entry)) (groq : nat -> Groq)
    (requests_post : http_result json_value) :
  config_ok cfg = false ->
  run_outcome (main cfg sources requests_get groq requests_post) = inr (SysExit 1)
  /\ stage_events (run_trace (main cfg sources requests_get groq requests_post)) = []
  /\ exit_status (run_outcome (main cfg sources requests_get groq requests_post)) = 1%Z.
Proof.
  unfold config_ok, main. intros H.
  destruct (missing_or_placeholder (py "YOUR_WORKER_URL") (API_URL cfg)).
  - repeat split.
  - destruct (missing_or_placeholder (py "YOUR_API_KEY") (API_KEY cfg));
      [repeat split | discriminate].
Qed.

Lemma X18_main_refuses_bad_config_witness :
  run_outcome (main placeholder_config SOURCES all_time_out (fun _ => groq_down)
                (Raises Timeout)) = inr (SysExit 1)
  /\ stage_events (run_trace (main placeholder_config SOURCES all_time_out
                               (fun _ => groq_down) (Raises Timeout))) = []
  /\ exit_status (run_outcome (main placeholder_config SOURCES all_time_out
                                (fun _ => groq_down) (Raises Timeout))) = 1%Z.
Proof.
  apply (X18_main_refuses_bad_config placeholder_config SOURCES all_time_out
           (fun _ => groq_down) (Raises Timeout)).
  vm_compute; reflexivity.
Defined.

(** The run after the configuration tests, by what was collected. *)
Lemma main_accepted (cfg : Config) (sources : list Source)
    (requests_get : nat -> http_result (list Entry)) (groq : nat -> Groq)
    (requests_post : http_result json_value) :
  config_ok cfg = true ->
  run_outcome (main cfg sources requests_get groq requests_post)
  = match records_from requests_get 1 sources with
    | [] => inr Completes
    | _ :: _ =>
        match outcome_of (upload_articles cfg requests_post
                            (summarized cfg groq (records_from requests_get 1 sources))) with
        | inr true => inr Completes
        | inr false => inr (SysExit 1)
        | inl e => inl e
        end
    end
  /\ stage_events (run_trace (main cfg sources requests_get groq requests_post))
     = trace_of (collect requests_get sources)
       ++ match records_from requests_get 1 sources with
          | [] => []
          | _ :: _ =>
              trace_of (process_articles_with_ai cfg groq
                          (records_from requests_get 1 sources))
              ++ trace_of (upload_articles cfg requests_post
                             (summarized cfg groq (records_from requests_get 1 sources)))
          end.
Proof.
  intros Hok. destruct (config_ok_tests cfg Hok) as [Hu Hk].
  unfold main. rewrite Hu, Hk.
  pose proof (collect_loop_outcome requests_get (length sources) 1 sources []) as Hc.
  fold (collect requests_get sources) in Hc. cbn [app] in Hc.
  destruct (collect requests_get sources) as [tc rc]. cbn [outcome_of snd] in Hc. subst rc.
  destruct (records_from requests_get 1 sources) as [|record batch] eqn:Eb.
  - cbn. rewrite stage_events_app, stage_events_stage. cbn.
    rewrite app_nil_r. split; reflexivity.
  - pose proof (process_outcome cfg groq (record :: batch)) as Hp.
    pose proof (summarized_frame cfg groq (record :: batch)) as Hf.
    destruct (summarized cfg groq (record :: batch)) as [|first others] eqn:Es;
      [inversion Hf|].
    destruct (process_articles_with_ai cfg groq (record :: batch)) as [tp rp] eqn:Ep.
    cbn [outcome_of snd] in Hp. subst rp.
    remember (upload_articles cfg requests_post) as upload eqn:Eupload.
    cbn. rewrite Ep. cbn.
    destruct (upload (first :: others)) as [tu [e | [|]]];
      cbn; rewrite !stage_events_app, !stage_events_stage; cbn;
      rewrite ?stage_events_app, ?stage_events_stage; cbn;
      rewrite ?app_nil_r; split; reflexivity.
Qed.

(** X19: with an accepted configuration, when no source yields a
    record the run requests every source in order and nothing else, no
    provider call and no POST, and [main] returns: exit status 0. *)
Theorem X19_main_nothing_fetched (cfg : Config) (sources : list Source)
    (requests_get : nat -> http_result (list Entry)) (groq : nat -> Groq)
    (requests_post : http_result json_value) :
  config_ok cfg = true ->
  records_from requests_get 1 sources = [] ->
  run_outcome (main cfg sources requests_get groq requests_post) = inr Completes
  /\ exit_status (run_outcome (main cfg sources requests_get groq requests_post)) = 0%Z
  /\ network_calls (stage_events
                     (run_trace (main cfg sources requests_get groq requests_post)))
     = get_requests sources.
Proof.
  intros Hok Hnone.
  destruct (main_accepted cfg sources requests_get groq requests_post Hok) as [Ho Ht].
  rewrite Hnone in Ho, Ht. rewrite Ho, Ht, app_nil_r.
  repeat split. unfold collect. apply collect_loop_calls.
Qed.

Lemma X19_main_nothing_fetched_witness :
  run_outcome (main ai_enabled SOURCES all_time_out (fun _ => groq_down) accepted)
  = inr Completes
  /\ exit_status (run_outcome (main ai_enabled SOURCES all_time_out
                                 (fun _ => groq_down) accepted)) = 0%Z
  /\ network_calls (stage_events
                     (run_trace (main ai_enabled SOURCES all_time_out
                                   (fun _ => groq_down) accepted)))
     = get_requests SOURCES.
Proof.
  apply (X19_main_nothing_fetched ai_enabled SOURCES all_time_out
           (fun _ => groq_down) accepted).
  - vm_compute; reflexivity.
  - vm_compute; reflexivity.
Defined.

(** X20: with an accepted configuration and at least one record
    collected, the run requests every source in order, then makes the
    Summarizer's provider calls, then sends one POST whose body is the
    collected batch as the Summarizer returned it: as many records, in
    the same order, each differing from the collected one in its summary
    at most.  The exit status is 0 exactly when [upload_articles]
    returns [True]; when it returns [False] the run ends with
    [sys.exit(1)], and an exception it lets through leaves [main]. *)
Theorem X20_main_uploads_batch (cfg : Config) (sources : list Source)
    (requests_get : nat -> http_result (list Entry)) (groq : nat -> Groq)
    (requests_post : http_result json_value) :
  config_ok cfg = true ->
  records_from requests_get 1 sources <> [] ->
  exists posted,
    Forall2 same_but_summary (records_from requests_get 1 sources) posted
    /\ outcome_of (process_articles_with_ai cfg groq (records_from requests_get 1 sources))
       = inr posted
    /\ network_calls (stage_events
                        (run_trace (main cfg sources requests_get groq requests_post)))
       = get_requests sources
         ++ network_calls (trace_of (process_articles_with_ai cfg groq
                                       (records_from requests_get 1 sources)))
         ++ [EvPost (API_URL cfg) (API_KEY cfg) posted 60]
    /\ run_outcome (main cfg sources requests_get groq requests_post)
       = match outcome_of (upload_articles cfg requests_post posted) with
         | inr true => inr Completes
         | inr false => inr (SysExit 1)
         | inl e => inl e
         end
    /\ (exit_status (run_outcome (main cfg sources requests_get groq requests_post)) = 0%Z
        <-> outcome_of (upload_articles cfg requests_post posted) = inr true).
Proof.
  intros Hok Hsome.
  destruct (main_accepted cfg sources requests_get groq requests_post Hok) as [Ho Ht].
  pose proof (summarized_frame cfg groq (records_from requests_get 1 sources)) as Hf.
  exists (summarized cfg groq (records_from requests_get 1 sources)).
  split; [exact Hf | split; [apply process_outcome|]].
  destruct (records_from requests_get 1 sources) as [|record batch] eqn:Eb;
    [contradiction|].
  destruct (summarized cfg groq (record :: batch)) as [|first others] eqn:Es;
    [inversion Hf|].
  split; [|split].
  - rewrite Ht, !network_calls_app, upload_articles_calls.
    unfold collect. rewrite collect_loop_calls. reflexivity.
  - exact Ho.
  - rewrite Ho.
    destruct (outcome_of (upload_articles cfg requests_post (first :: others)))
      as [e | [|]]; simpl; split; congruence.
Qed.

Lemma X20_main_uploads_batch_witness :
  exists posted,
    Forall2 same_but_summary (records_from second_times_out 1 [hacker_news; v2ex]) posted
    /\ outcome_of (process_articles_with_ai ai_enabled (fun _ => groq_down)
                     (records_from second_times_out 1 [hacker_news; v2ex]))
       = inr posted
    /\ network_calls (stage_events
                        (run_trace (main ai_enabled [hacker_news; v2ex] second_times_out
                                      (fun _ => groq_down) accepted)))
       = get_requests [hacker_news; v2ex]
         ++ network_calls (trace_of (process_articles_with_ai ai_enabled
                                       (fun _ => groq_down)
                                       (records_from second_times_out 1 [hacker_news; v2ex])))
         ++ [EvPost (API_URL ai_enabled) (API_KEY ai_enabled) posted 60]
    /\ run_outcome (main ai_enabled [hacker_news; v2ex] second_times_out
                      (fun _ => groq_down) accepted)
       = match outcome_of (upload_articles ai_enabled accepted posted) with
         | inr true => inr Completes
         | inr false => inr (SysExit 1)
         | inl e => inl e
         end
    /\ (exit_status (run_outcome (main ai_enabled [hacker_news; v2ex] second_times_out
                                    (fun _ => groq_down) accepted)) = 0%Z
        <-> outcome_of (upload_articles ai_enabled accepted posted) = inr true).
Proof.
  apply (X20_main_uploads_batch ai_enabled [hacker_news; v2ex] second_times_out
           (fun _ => groq_down) accepted).
  - vm_compute; reflexivity.
  - vm_compute; discriminate.
Defined.

(** ** The configuration (lines 19-29) *)

Lemma py_or_nil (a b : str) : py_or a b = [] <-> a = [] /\ b = [].
Proof.
  unfold py_or. destruct a as [|x a]; simpl.
  - split; [intros ->; split; reflexivity | intros [_ ->]; reflexivity].
  - split; [discriminate | intros [E _]; discriminate].
Qed.

Lemma lower_ascii_small (c k : char) :
  (97 <= k <= 122)%N -> lower_ascii c = k <-> c = k \/ c = (k - 32)%N.
Proof.
  intros Hk. unfold lower_ascii.
  destruct ((65 <=? c)%N && (c <=? 90)%N) eqn:E.
  - apply andb_true_iff in E. rewrite N.leb_le, N.leb_le in E. lia.
  - apply andb_false_iff in E. rewrite !N.leb_gt in E. lia.
Qed.

Section Environment.

Variable lower_unicode : str -> nat -> str.

Lemma lower_from_ascii (whole : str) (i : nat) (s : str) :
  forallb is_ascii s = true ->
  lower_from lower_unicode whole i s = map lower_ascii s.
Proof.
  revert i; induction s as [|c s IH]; intros i H; [reflexivity|].
  simpl in H. apply andb_true_iff in H. destruct H as [Hc Hs].
  cbn [lower_from map]. unfold is_ascii in Hc. rewrite Hc, IH by exact Hs. reflexivity.
Qed.

(** X21: the address and the key of the ingestion endpoint.
    [NEWS_API_URL], when set to a non-empty value, is the address,
    whatever [API_URL] holds; otherwise [API_URL] is, and the built-in
    address when that is not set either.  So the address is empty only
    when [API_URL] is set to the empty string and [NEWS_API_URL] is unset
    or empty.  The same holds of [NEWS_API_KEY] and [API_KEY]. *)
Theorem X21_load_config_endpoint (environ : string -> option str) :
  (forall v, environ "NEWS_API_URL"%string = Some v -> v <> [] ->
             API_URL (load_config lower_unicode environ) = v)
  /\ ((environ "NEWS_API_URL"%string = None \/ environ "NEWS_API_URL"%string = Some []) ->
      API_URL (load_config lower_unicode environ)
      = match environ "API_URL"%string with
        | Some v => v
        | None => py "https://news-api.zhusen-wang.workers.dev/add"
        end)
  /\ (API_URL (load_config lower_unicode environ) = []
      <-> (environ "NEWS_API_URL"%string = None \/ environ "NEWS_API_URL"%string = Some [])
          /\ environ "API_URL"%string = Some [])
  /\ (forall v, environ "NEWS_API_KEY"%string = Some v -> v <> [] ->
                API_KEY (load_config lower_unicode environ) = v)
  /\ (API_KEY (load_config lower_unicode environ) = []
      <-> (environ "NEWS_API_KEY"%string = None \/ environ "NEWS_API_KEY"%string = Some [])
          /\ environ "API_KEY"%string = Some []).
Proof.
  unfold load_config, getenv; cbn [API_URL API_KEY].
  split; [|split; [|split; [|split]]].
  - intros v -> Hv. unfold py_or. destruct v; [contradiction | reflexivity].
  - intros [-> | ->]; reflexivity.
  - rewrite py_or_nil. split.
    + intros [Hn Ha]. split.
      * destruct (environ "NEWS_API_URL"%string) as [v|]; simpl in *; [right; rewrite Hn; reflexivity | left; reflexivity].
      * destruct (environ "API_URL"%string) as [v|]; simpl in *; [rewrite Ha; reflexivity | discriminate].
    + intros [[-> | ->] ->]; split; reflexivity.
  - intros v -> Hv. unfold py_or. destruct v; [contradiction | reflexivity].
  - rewrite py_or_nil. split.
    + intros [Hn Ha]. split.
      * destruct (environ "NEWS_API_KEY"%string) as [v|]; simpl in *; [right; rewrite Hn; reflexivity | left; reflexivity].
      * destruct (environ "API_KEY"%string) as [v|]; simpl in *; [rewrite Ha; reflexivity | discriminate].
    + intros [[-> | ->] ->]; split; reflexivity.
Qed.

(** X22: for a value of ASCII characters, summaries are enabled exactly
    when the value is [1] or one of the sixteen spellings of [true] in
    small and capital letters; surrounding blanks are not ignored. *)
Theorem X22_enable_flag_ascii (v : str) :
  forallb is_ascii v = true ->
  enable_ai_summary lower_unicode (Some v) = true
  <-> v = py "1" \/ In v true_spellings.
Proof.
  intros Hv. unfold enable_ai_summary, lower.
  rewrite (lower_from_ascii v 0 v Hv), orb_true_iff, !str_eqb_eq.
  split.
  - intros [H | H].
    + right. destruct v as [|a [|b [|c [|d [|x v]]]]]; try discriminate.
      injection H as Ha Hb Hc Hd.
      apply lower_ascii_small in Ha, Hb, Hc, Hd; try (vm_compute; split; discriminate).
      destruct Ha as [-> | ->], Hb as [-> | ->], Hc as [-> | ->], Hd as [-> | ->];
        vm_compute; tauto.
    + left. change (py "1") with [49%N] in *.
      destruct v as [|a [|x v]]; try discriminate.
      injection H as Ha. unfold lower_ascii in Ha.
      destruct ((65 <=? a)%N && (a <=? 90)%N) eqn:E; [|rewrite Ha; reflexivity].
      apply andb_true_iff in E. rewrite !N.leb_le in E. lia.
  - intros [-> | H]; [right; reflexivity|].
    left. vm_compute in H.
    repeat (destruct H as [<- | H]; [reflexivity|]). contradiction.
Qed.

(** X23: with no variable set the run passes the configuration tests
    and the flag is on, yet no summary is rewritten: whenever
    [GROQ_API_KEY] is unset or empty the Summarizer returns its input
    and makes no provider call, whatever [ENABLE_AI_SUMMARY] holds. *)
Theorem X23_no_key_no_provider_call (environ : string -> option str)
    (groq : nat -> Groq) (articles : list Article) :
  environ "GROQ_API_KEY"%string = None \/ environ "GROQ_API_KEY"%string = Some [] ->
  process_articles_with_ai (load_config lower_unicode environ) groq articles
  = ([EvPrint (if ENABLE_AI_SUMMARY (load_config lower_unicode environ)
               then MsgNoGroqKey else MsgAiDisabled)],
     inr articles)
  /\ config_ok (load_config lower_unicode empty_environ) = true
  /\ ENABLE_AI_SUMMARY (load_config lower_unicode empty_environ) = true.
Proof.
  intros H. split; [|split; vm_compute; reflexivity].
  unfold process_articles_with_ai.
  assert (Hk : GROQ_API_KEY (load_config lower_unicode environ) = []).
  { unfold load_config, getenv; cbn [GROQ_API_KEY]. destruct H as [-> | ->]; reflexivity. }
  rewrite Hk. destruct (ENABLE_AI_SUMMARY (load_config lower_unicode environ)); reflexivity.
Qed.

End Environment.

Lemma X22_enable_flag_ascii_witness :
  enable_ai_summary unicode_unchanged (Some (py "tRuE")) = true
  <-> py "tRuE" = py "1" \/ In (py "tRuE") true_spellings.
Proof.
  apply (X22_enable_flag_ascii unicode_unchanged (py "tRuE")). reflexivity.
Defined.

Lemma X23_no_key_no_provider_call_witness :
  process_articles_with_ai (load_config unicode_unchanged empty_environ)
    (fun _ => groq_down) [bold_article]
  = ([EvPrint (if ENABLE_AI_SUMMARY (load_config unicode_unchanged empty_environ)
               then MsgNoGroqKey else MsgAiDisabled)],
     inr [bold_article])
  /\ config_ok (load_config unicode_unchanged empty_environ) = true
  /\ ENABLE_AI_SUMMARY (load_config unicode_unchanged empty_environ) = true.
Proof.
  apply (X23_no_key_no_provider_call unicode_unchanged empty_environ
           (fun _ => groq_down) [bold_article]).
  left; reflexivity.
Defined.
